(** * HitFilm AR composite importer (blender_hitfilm_importer.py)

    A shallow embedding of [zoomToLens], [calculateFOV] and
    [import_hitfilm_composite], and the properties of the importer's
    specification stated over it.

    Conventions of the embedding.
    - The unit converters are embedded twice.  Module [Binary64] has them
      over IEEE-754 binary64 numbers, as CPython evaluates them: every
      division and product is rounded to nearest even, and a quotient may
      underflow to zero.  The properties of the converters are stated
      there.  Inside the importer the numbers are exact rationals ([Qc],
      canonical rationals, so that equal numbers are equal terms): the
      statements about the importer are about what is read, in which order,
      which samples are combined into which key and which exception ends
      the import, not about rounding.
    - A Python [int] is a [Z].
    - An uncaught Python exception is a [Raise] result; the scene keeps
      whatever was written before the exception.
    - [print] calls are left out: they write to the console only.
    - The functions of Python's and Blender's libraries that the importer
      calls are gathered in the class [Host]; their code is not part of
      the repository. *)

From Stdlib Require Import ZArith QArith Qcanon List Ascii String Bool Lia.
From Stdlib Require Import Floats.SpecFloat.
Import ListNotations.

(* [Element] nests [list]; its induction principle is stated below. *)
Set Warnings "-register-all".

Local Open Scope Z_scope.
Local Open Scope Qc_scope.
Local Open Scope string_scope.
Local Open Scope list_scope.

(** ** Python results *)

Inductive exn : Set :=
| AttributeError
| TypeError
| ValueError
| AssertionError
| IndexError
| ZeroDivisionError.

Inductive result (A : Type) : Type :=
| Ok (a : A)
| Raise (e : exn).

Arguments Ok {A} a.
Arguments Raise {A} e.

Definition rbind {A B : Type} (m : result A) (k : A -> result B) : result B :=
  match m with
  | Ok a => k a
  | Raise e => Raise e
  end.

Declare Scope result_scope.
Delimit Scope result_scope with result.
Notation "x <- m ;; k" := (rbind m (fun x => k))
  (at level 61, m at next level, right associativity) : result_scope.
Notation "' p <- m ;; k" := (rbind m (fun x => let p := x in k))
  (at level 61, p pattern, m at next level, right associativity) : result_scope.

(** ** Numbers *)

Definition Z2Qc (z : Z) : Qc := Q2Qc (inject_Z z).

(** Python's [a / b] in exact arithmetic: a zero divisor raises. *)
Definition truediv (a b : Qc) : result Qc :=
  if Qeq_bool b 0 then Raise ZeroDivisionError else Ok (a / b).

(** ** The focal length inside the importer (lines 41-47)

    [zoomToLens] in exact arithmetic, as the importer's frames use it. *)

Definition PixelsPerMM : Qc := Q2Qc (28352 # 10000).

Definition zoomToLens (lensZoomInPixels compWidthInPixels : Qc) : result Qc :=
  (lensZoomInMM <- truediv lensZoomInPixels PixelsPerMM ;;
   compWidthInMM <- truediv compWidthInPixels PixelsPerMM ;;
   lens <- truediv (Z2Qc 36 * lensZoomInMM) compWidthInMM ;;
   Ok lens)%result.

(** ** The unit converters over binary64 numbers (lines 41-55)

    A Python [float] is an IEEE-754 binary64 number: precision 53, exponents
    up to 1024, every operation rounded to nearest, ties to even.  The
    operations are those of the Standard Library's specification of
    floating-point arithmetic. *)
Module Binary64.

Definition prec : Z := 53.
Definition emax : Z := 1024.

Definition mul (a b : spec_float) : spec_float := SFmul prec emax a b.
Definition div (a b : spec_float) : spec_float := SFdiv prec emax a b.

(** [float(n)] for an integer [n], which is also the value of a literal
    such as [36.0]: the nearest binary64 number. *)
Definition of_Z (n : Z) : spec_float := binary_normalize prec emax n 0 false.

(** The decimal literal [n / 10^k], for [n] and [10^k] below 2^53: the
    nearest binary64 number, which is the correctly rounded quotient of the
    two integers. *)
Definition of_decimal (n : Z) (k : Z) : spec_float :=
  div (of_Z n) (of_Z (10 ^ k)).

(** [x == 0.0], true of both zeros. *)
Definition is_zero (x : spec_float) : bool := SFeqb x (S754_zero false).

(** Python's [a / b] on floats: a zero divisor raises. *)
Definition truediv (a b : spec_float) : result spec_float :=
  if is_zero b then Raise ZeroDivisionError else Ok (div a b).

(** Line 41 *)
Definition PixelsPerMM : spec_float := of_decimal 28352 4.

(** Lines 43-47 *)
Definition zoomToLens (lensZoomInPixels compWidthInPixels : spec_float)
  : result spec_float :=
  (lensZoomInMM <- truediv lensZoomInPixels PixelsPerMM ;;
   compWidthInMM <- truediv compWidthInPixels PixelsPerMM ;;
   lens <- truediv (mul (of_Z 36) lensZoomInMM) compWidthInMM ;;
   Ok lens)%result.

(** Lines 49-55.  [math.atan] is a function of Python's library, defined on
    every float; the degrees printed on line 54 go to the console only. *)
Section FieldOfView.

Variable atan : spec_float -> spec_float.

Definition calculateFOV (lensZoomInPixels compHeightInPixels : spec_float)
  : result spec_float :=
  (lensZoomInMM <- truediv lensZoomInPixels PixelsPerMM ;;
   compHeightInMM <- truediv compHeightInPixels PixelsPerMM ;;
   ratio <- truediv (mul compHeightInMM (of_decimal 5 1)) lensZoomInMM ;;
   let fov := mul (atan ratio) (of_Z 2) in
   Ok fov)%result.

End FieldOfView.

(** Line 117 *)
Definition blenderScale : spec_float :=
  mul (div (of_Z 1) (of_Z 1000)) PixelsPerMM.

End Binary64.

(** ** The parsed document (xml.etree.ElementTree)

    [ET.parse(filepath).getroot()] is the input of the embedding: a tree of
    elements, each with a tag, its attributes, its text and its children in
    document order. *)

Inductive Element : Type :=
| Elem (tag : string) (attrib : list (string * string))
       (text : option string) (children : list Element).

Definition tag (e : Element) : string :=
  match e with Elem t _ _ _ => t end.
Definition attrib (e : Element) : list (string * string) :=
  match e with Elem _ a _ _ => a end.
Definition text (e : Element) : option string :=
  match e with Elem _ _ x _ => x end.
Definition children (e : Element) : list Element :=
  match e with Elem _ _ _ c => c end.

Fixpoint lookup (key : string) (a : list (string * string)) : option string :=
  match a with
  | [] => None
  | (k, v) :: a' => if String.eqb k key then Some v else lookup key a'
  end.

(** [elem.get(key)]: the attribute, or [None]. *)
Definition get (e : Element) (key : string) : option string :=
  lookup key (attrib e).

(** [elem.iter()] without [elem] itself: the sub-elements in document order. *)
Fixpoint descendants (e : Element) : list Element :=
  match e with
  | Elem _ _ _ cs =>
      (fix walk (l : list Element) : list Element :=
         match l with
         | [] => []
         | c :: l' => c :: descendants c ++ walk l'
         end) cs
  end.

(** The selectors ElementPath compiles a path into.  The tokenizer splits
    ".//*CameraLayer" into ".", "//", "*", "CameraLayer": [prepare_self],
    then [prepare_descendant] (which consumes the "*"), then [prepare_child]
    for the tag; so the path selects the children tagged CameraLayer of the
    sub-elements of the context element. *)
Inductive step : Set :=
| Self
| Descendant_any
| Child (t : string).

Definition select (st : step) (result : list Element) : list Element :=
  match st with
  | Self => result
  | Descendant_any => flat_map descendants result
  | Child t =>
      flat_map (fun elem => filter (fun e => String.eqb (tag e) t)
                                   (children elem)) result
  end.

Definition iterfind (elem : Element) (path : list step) : list Element :=
  fold_left (fun result st => select st result) path [elem].

Definition findall (elem : Element) (path : list step) : list Element :=
  iterfind elem path.

Definition find (elem : Element) (path : list step) : option Element :=
  hd_error (iterfind elem path).

(** The paths of the importer. *)
Definition path_AudioVideoSettings : list step :=   (* ".//*AudioVideoSettings" *)
  [Self; Descendant_any; Child "AudioVideoSettings"].
Definition path_CameraLayer : list step :=           (* ".//*CameraLayer" *)
  [Self; Descendant_any; Child "CameraLayer"].
Definition path_position_Animation : list step :=    (* ".//*position/Animation" *)
  [Self; Descendant_any; Child "position"; Child "Animation"].
Definition path_orientation_Animation : list step := (* ".//*orientation/Animation" *)
  [Self; Descendant_any; Child "orientation"; Child "Animation"].
Definition path_zoom_Animation : list step :=        (* ".//*zoom/Animation" *)
  [Self; Descendant_any; Child "zoom"; Child "Animation"].
Definition path_FXPoint3_32f : list step :=          (* './/*FXPoint3_32f' *)
  [Self; Descendant_any; Child "FXPoint3_32f"].
Definition path_Orientation3D : list step :=         (* './/*Orientation3D' *)
  [Self; Descendant_any; Child "Orientation3D"].
Definition path_Value_float : list step :=           (* 'Value/float' *)
  [Child "Value"; Child "float"].
Definition path_PointLayer : list step :=            (* ".//*PointLayer" *)
  [Self; Descendant_any; Child "PointLayer"].
Definition path_Name : list step :=                  (* ".//*Name" *)
  [Self; Descendant_any; Child "Name"].
Definition path_position_Default_p3 : list step :=   (* ".//*position/Default/p3" *)
  [Self; Descendant_any; Child "position"; Child "Default"; Child "p3"].

(** ** Vectors and matrices (mathutils) *)

Record Vec3 : Set := mkVec3 { vx : Qc; vy : Qc; vz : Qc }.
Record Vec4 : Set := mkVec4 { wx : Qc; wy : Qc; wz : Qc; ww : Qc }.
(** Matrices are stored by rows. *)
Record Mat3 : Set := mkMat3 { m3_0 : Vec3; m3_1 : Vec3; m3_2 : Vec3 }.
Record Mat4 : Set := mkMat4 { row0 : Vec4; row1 : Vec4; row2 : Vec4; row3 : Vec4 }.

Definition vec3_map (f : Qc -> Qc) (v : Vec3) : Vec3 :=
  mkVec3 (f (vx v)) (f (vy v)) (f (vz v)).

Definition vec3_zero : Vec3 := mkVec3 0 0 0.

(** [m.to_4x4()] *)
Definition to_4x4 (m : Mat3) : Mat4 :=
  mkMat4 (mkVec4 (vx (m3_0 m)) (vy (m3_0 m)) (vz (m3_0 m)) 0)
         (mkVec4 (vx (m3_1 m)) (vy (m3_1 m)) (vz (m3_1 m)) 0)
         (mkVec4 (vx (m3_2 m)) (vy (m3_2 m)) (vz (m3_2 m)) 0)
         (mkVec4 0 0 0 1).

(** [mathutils.Matrix().Translation(v)] *)
Definition Translation (v : Vec3) : Mat4 :=
  mkMat4 (mkVec4 1 0 0 (vx v))
         (mkVec4 0 1 0 (vy v))
         (mkVec4 0 0 1 (vz v))
         (mkVec4 0 0 0 1).

Definition dot4 (a b : Vec4) : Qc :=
  wx a * wx b + wy a * wy b + wz a * wz b + ww a * ww b.

Definition col0 (m : Mat4) : Vec4 :=
  mkVec4 (wx (row0 m)) (wx (row1 m)) (wx (row2 m)) (wx (row3 m)).
Definition col1 (m : Mat4) : Vec4 :=
  mkVec4 (wy (row0 m)) (wy (row1 m)) (wy (row2 m)) (wy (row3 m)).
Definition col2 (m : Mat4) : Vec4 :=
  mkVec4 (wz (row0 m)) (wz (row1 m)) (wz (row2 m)) (wz (row3 m)).
Definition col3 (m : Mat4) : Vec4 :=
  mkVec4 (ww (row0 m)) (ww (row1 m)) (ww (row2 m)) (ww (row3 m)).

Definition row_mul (r : Vec4) (b : Mat4) : Vec4 :=
  mkVec4 (dot4 r (col0 b)) (dot4 r (col1 b)) (dot4 r (col2 b)) (dot4 r (col3 b)).

(** [a @ b] *)
Definition matmul (a b : Mat4) : Mat4 :=
  mkMat4 (row_mul (row0 a) b) (row_mul (row1 a) b)
         (row_mul (row2 a) b) (row_mul (row3 a) b).

Infix "@@" := matmul (at level 40, left associativity).

(** The translation part of a 4x4 matrix and the product of a 3x3 matrix
    with a vector. *)
Definition to_translation (m : Mat4) : Vec3 :=
  mkVec3 (ww (row0 m)) (ww (row1 m)) (ww (row2 m)).

Definition dot3 (a b : Vec3) : Qc := vx a * vx b + vy a * vy b + vz a * vz b.

Definition mat3_vec (m : Mat3) (v : Vec3) : Vec3 :=
  mkVec3 (dot3 (m3_0 m) v) (dot3 (m3_1 m) v) (dot3 (m3_2 m) v).

(** The affine matrix with linear part [m] and translation [t]. *)
Definition affine (m : Mat3) (t : Vec3) : Mat4 :=
  mkMat4 (mkVec4 (vx (m3_0 m)) (vy (m3_0 m)) (vz (m3_0 m)) (vx t))
         (mkVec4 (vx (m3_1 m)) (vy (m3_1 m)) (vz (m3_1 m)) (vy t))
         (mkVec4 (vx (m3_2 m)) (vy (m3_2 m)) (vz (m3_2 m)) (vz t))
         (mkVec4 0 0 0 1).

(** ** The host: what the importer takes from Python and Blender

    Library functions whose code is outside this repository. *)
Class Host : Type := {
  (** [int(s)] on a string: [None] when it raises ValueError. *)
  int_of_string : string -> option Z;
  (** [float(s)] on a string: [None] when it raises ValueError. *)
  float_of_string : string -> option Qc;
  (** [math.radians(x)] is [x * degToRad], with [degToRad] = pi / 180. *)
  degToRad : Qc;
  (** [mathutils.Euler(angles, order).to_matrix()] *)
  euler_to_matrix : Vec3 -> string -> Mat3;
  (** [bpy_extras.io_utils.axis_conversion(from_forward, from_up,
      to_forward, to_up)] *)
  axis_conversion : string -> string -> string -> string -> Mat3;
  (** The [rotation_euler] an object gets when [matrix_world] is assigned. *)
  matrix_to_euler : Mat4 -> Vec3
}.

(** ** The scene (bpy.context.scene and its objects) *)

Record Object : Set := mkObject {
  ob_type : string;               (* 'CAMERA' or 'EMPTY' *)
  name : string;
  matrix_world : Mat4;
  location : Vec3;
  rotation_euler : Vec3;
  lens : Qc;                      (* data.lens *)
  display_size : Qc;              (* data.display_size *)
  empty_display_type : string;
  empty_display_size : Qc
}.

(** Animation keys, in the order they were inserted.  Objects are named by
    their index in the scene's object list. *)
Inductive Keyframe : Set :=
| KeyLens (ob : nat) (frame : Z) (value : Qc)
| KeyLocRot (ob : nat) (frame : Z) (loc : Vec3) (rot : Vec3).

Record Scene : Set := mkScene {
  resolution_x : Z;               (* render.resolution_x *)
  resolution_y : Z;               (* render.resolution_y *)
  fps : Z;                        (* render.fps *)
  frame_end : Z;
  frame_current : Z;
  objects : list Object;
  active_object : option nat;
  keyframes : list Keyframe
}.

Inductive Status : Set := FINISHED | CANCELLED.

(** *** Computations on the scene that may raise *)

Definition M (A : Type) : Type := Scene -> Scene * result A.

Definition ret {A : Type} (a : A) : M A := fun s => (s, Ok a).

Definition raise {A : Type} (e : exn) : M A := fun s => (s, Raise e).

Definition bind {A B : Type} (m : M A) (k : A -> M B) : M B :=
  fun s => match m s with
           | (s', Ok a) => k a s'
           | (s', Raise e) => (s', Raise e)
           end.

Definition lift {A : Type} (r : result A) : M A := fun s => (s, r).

Definition modify (f : Scene -> Scene) : M unit := fun s => (f s, Ok tt).

Definition gets {A : Type} (f : Scene -> A) : M A := fun s => (s, Ok (f s)).

Declare Scope scene_scope.
Delimit Scope scene_scope with scene.
Notation "x <- m ;; k" := (bind m (fun x => k))
  (at level 61, m at next level, right associativity) : scene_scope.
Notation "m ;;; k" := (bind m (fun _ => k))
  (at level 61, right associativity) : scene_scope.

(** [for x in l: body(x)] *)
Fixpoint for_each {A : Type} (l : list A) (body : A -> M unit) : M unit :=
  match l with
  | [] => ret tt
  | x :: l' => (body x ;;; for_each l' body)%scene
  end.

(** *** Scene writes *)

(** Blender keeps an integer property within its range: a value assigned
    below the range is stored as the lower bound, one above as the upper
    bound.  The resolution is kept in [4, 65536] and the frame rate in
    [1, 32767]. *)
Definition clamp (lo hi v : Z) : Z := Z.max lo (Z.min hi v).

Definition set_resolution_x (v : Z) (s : Scene) : Scene :=
  mkScene (clamp 4 65536 v) (resolution_y s) (fps s) (frame_end s)
          (frame_current s) (objects s) (active_object s) (keyframes s).
Definition set_resolution_y (v : Z) (s : Scene) : Scene :=
  mkScene (resolution_x s) (clamp 4 65536 v) (fps s) (frame_end s)
          (frame_current s) (objects s) (active_object s) (keyframes s).
Definition set_fps (v : Z) (s : Scene) : Scene :=
  mkScene (resolution_x s) (resolution_y s) (clamp 1 32767 v) (frame_end s)
          (frame_current s) (objects s) (active_object s) (keyframes s).
Definition set_frame_end (v : Z) (s : Scene) : Scene :=
  mkScene (resolution_x s) (resolution_y s) (fps s) v (frame_current s)
          (objects s) (active_object s) (keyframes s).
Definition set_frame_current (v : Z) (s : Scene) : Scene :=
  mkScene (resolution_x s) (resolution_y s) (fps s) (frame_end s) v
          (objects s) (active_object s) (keyframes s).
Definition set_objects (v : list Object) (s : Scene) : Scene :=
  mkScene (resolution_x s) (resolution_y s) (fps s) (frame_end s)
          (frame_current s) v (active_object s) (keyframes s).
Definition set_active_object (v : option nat) (s : Scene) : Scene :=
  mkScene (resolution_x s) (resolution_y s) (fps s) (frame_end s)
          (frame_current s) (objects s) v (keyframes s).
Definition set_keyframes (v : list Keyframe) (s : Scene) : Scene :=
  mkScene (resolution_x s) (resolution_y s) (fps s) (frame_end s)
          (frame_current s) (objects s) (active_object s) v.

(** [ob.name = v] stores the name assigned.  (Blender keeps the names of
    its objects apart: a name already taken gets a numeric suffix.  That is
    not modelled; a statement that reads a name back is made for a scene in
    which the name is free.) *)
Definition set_name (v : string) (o : Object) : Object :=
  mkObject (ob_type o) v (matrix_world o) (location o) (rotation_euler o)
           (lens o) (display_size o) (empty_display_type o)
           (empty_display_size o).
Definition set_lens (v : Qc) (o : Object) : Object :=
  mkObject (ob_type o) (name o) (matrix_world o) (location o)
           (rotation_euler o) v (display_size o) (empty_display_type o)
           (empty_display_size o).
Definition set_display_size (v : Qc) (o : Object) : Object :=
  mkObject (ob_type o) (name o) (matrix_world o) (location o)
           (rotation_euler o) (lens o) v (empty_display_type o)
           (empty_display_size o).
Definition set_empty_display_size (v : Qc) (o : Object) : Object :=
  mkObject (ob_type o) (name o) (matrix_world o) (location o)
           (rotation_euler o) (lens o) (display_size o)
           (empty_display_type o) v.
(** [ob.rotation_euler.x = v] writes the angle.  [matrix_world] is left as
    it was assigned: Blender refreshes it from location and rotation at its
    next update, so the statements about a marker go by its location and
    its rotation_euler. *)
Definition set_rotation_euler_x (v : Qc) (o : Object) : Object :=
  mkObject (ob_type o) (name o) (matrix_world o) (location o)
           (mkVec3 v (vy (rotation_euler o)) (vz (rotation_euler o)))
           (lens o) (display_size o) (empty_display_type o)
           (empty_display_size o).

Fixpoint update_nth {A : Type} (i : nat) (f : A -> A) (l : list A) : list A :=
  match l, i with
  | [], _ => []
  | x :: l', O => f x :: l'
  | x :: l', S i' => x :: update_nth i' f l'
  end.

(** [ob.attr], where [ob] was read from [C.active_object]: a reference into
    the scene's objects, or [None]. *)
Definition getattr {A : Type} (ob : option nat) (attr : Object -> A) : M A :=
  fun s =>
    match ob with
    | None => (s, Raise AttributeError)
    | Some i =>
        match nth_error (objects s) i with
        | None => (s, Raise AttributeError)
        | Some o => (s, Ok (attr o))
        end
    end.

(** [ob.attr = v] *)
Definition setattr (ob : option nat) (upd : Object -> Object) : M unit :=
  fun s =>
    match ob with
    | None => (s, Raise AttributeError)
    | Some i => (set_objects (update_nth i upd (objects s)) s, Ok tt)
    end.

(** *** Host operators *)

Definition new_empty (type : string) (loc : Vec3) : Object :=
  mkObject "EMPTY" "Empty" (Translation loc) loc vec3_zero
           (Z2Qc 50) (Z2Qc 1) type (Z2Qc 1).

(** A new camera sits at the 3D cursor, taken here at the origin, with
    Blender's default lens. *)
Definition new_camera : Object :=
  mkObject "CAMERA" "Camera" (Translation vec3_zero) vec3_zero vec3_zero
           (Z2Qc 50) (Z2Qc 1) "PLAIN_AXES" (Z2Qc 1).

(** An operator that adds an object appends it to the scene and makes it the
    active (and only selected) object. *)
Definition add_object (o : Object) : M unit :=
  fun s =>
    (set_active_object (Some (List.length (objects s)))
       (set_objects (objects s ++ [o]) s), Ok tt).

(** [O.object.camera_add(enter_editmode=False)] *)
Definition camera_add : M unit := add_object new_camera.

(** [O.object.empty_add(type=type, location=location)] *)
Definition empty_add (type : string) (loc : Vec3) : M unit :=
  add_object (new_empty type loc).

(** [C.scene.frame_set(i)] moves the current frame.  (Blender then
    re-evaluates the animated properties of the objects that carry keys
    from their curves; that is not modelled.  The importer overwrites the
    lens, location and rotation of its camera before it keys them, so the
    keys do not depend on it; the statements read the keys from
    [keyframes], and those about the objects of the scene are made for the
    objects without keys.) *)
Definition frame_set (i : Z) : M unit := modify (set_frame_current i).

Definition add_key (k : Keyframe) : M unit :=
  modify (fun s => set_keyframes (keyframes s ++ [k]) s).

(** [ob.data.keyframe_insert("lens", frame=frame)] keys the current lens. *)
Definition keyframe_insert_lens (ob : option nat) (frame : Z) : M unit :=
  (v <- getattr ob lens ;;
   match ob with
   | Some i => add_key (KeyLens i frame v)
   | None => raise AttributeError
   end)%scene.

(** [O.anim.keyframe_insert_menu(type='BUILTIN_KSI_LocRot')] keys location
    and rotation of the selected object at the current frame. *)
Definition keyframe_insert_menu_LocRot : M unit :=
  (ob <- gets active_object ;;
   loc <- getattr ob location ;;
   rot <- getattr ob rotation_euler ;;
   frame <- gets frame_current ;;
   match ob with
   | Some i => add_key (KeyLocRot i frame loc rot)
   | None => raise AttributeError
   end)%scene.

(** [l[i]] *)
Definition index {A : Type} (l : list A) (i : nat) : result A :=
  match nth_error l i with
  | Some x => Ok x
  | None => Raise IndexError
  end.

(** ** The importer (lines 57-169) *)

Section Importer.

Context {host : Host}.

(** [math.radians] *)
Definition radians (x : Qc) : Qc := x * degToRad.

(** [int(x)] and [float(x)] for [x] a string or [None]. *)
Definition py_int (x : option string) : result Z :=
  match x with
  | None => Raise TypeError
  | Some s => match int_of_string s with
              | Some z => Ok z
              | None => Raise ValueError
              end
  end.

Definition py_float (x : option string) : result Qc :=
  match x with
  | None => Raise TypeError
  | Some s => match float_of_string s with
              | Some q => Ok q
              | None => Raise ValueError
              end
  end.

(** [node.find(path).text], where [node] itself may be [None]. *)
Definition find_text (node : option Element) (path : list step)
  : result (option string) :=
  match node with
  | None => Raise AttributeError
  | Some n => match find n path with
              | None => Raise AttributeError
              | Some c => Ok (text c)
              end
  end.

(** [node.get(key)], where [node] may be [None]. *)
Definition get_attr (node : option Element) (key : string)
  : result (option string) :=
  match node with
  | None => Raise AttributeError
  | Some n => Ok (get n key)
  end.

(** [(float(node.get('X')), float(node.get('Y')), float(node.get('Z')))] *)
Definition read_xyz (node : option Element) : result Vec3 :=
  (x <- (a <- get_attr node "X" ;; py_float a) ;;
   y <- (a <- get_attr node "Y" ;; py_float a) ;;
   z <- (a <- get_attr node "Z" ;; py_float a) ;;
   Ok (mkVec3 x y z))%result.

(** Lines 92-93, 101-102 and 110-111: the value of one key. *)
Definition read_position_key (key : Element) : result Vec3 :=
  let position := find key path_FXPoint3_32f in
  read_xyz position.

Definition read_rotation_key (key : Element) : result Vec3 :=
  let euler := find key path_Orientation3D in
  read_xyz euler.

Definition read_zoom_key (key : Element) : result Qc :=
  (zoom <- find_text (Some key) path_Value_float ;;
   py_float zoom)%result.

(** Lines 90-93: the loop over the position keys, appending to [timeKeys]
    and [camPositions]. *)
Fixpoint read_position_keys (posKeys : list Element)
    (timeKeys : list (option string)) (camPositions : list Vec3)
  : result (list (option string) * list Vec3) :=
  match posKeys with
  | [] => Ok (timeKeys, camPositions)
  | key :: rest =>
      let timeKeys := timeKeys ++ [get key "Time"] in
      (p <- read_position_key key ;;
       read_position_keys rest timeKeys (camPositions ++ [p]))%result
  end.

(** Lines 100-102 and 109-111: the loops over the rotation and zoom keys. *)
Fixpoint read_keys {A : Type} (read : Element -> result A)
    (keys : list Element) (vals : list A) : result (list A) :=
  match keys with
  | [] => Ok vals
  | key :: rest =>
      (v <- read key ;; read_keys read rest (vals ++ [v]))%result
  end.

(** Lines 86-93: the position channel, which also records the time keys. *)
Definition read_position_channel (cameraNode : Element)
  : result (list (option string) * list Vec3) :=
  let cameraPosAnim := findall cameraNode path_position_Animation in
  match cameraPosAnim with
  | [] => Ok ([], [])
  | anim :: _ => read_position_keys (children anim) [] []
  end.

(** Lines 95-102 and 104-111: a rotation or zoom channel.  Its keys are
    asserted to be as many as the time keys recorded for the position. *)
Definition read_checked_channel {A : Type} (cameraNode : Element)
    (path : list step) (read : Element -> result A)
    (timeKeys : list (option string)) : result (list A) :=
  let anim := findall cameraNode path in
  match anim with
  | [] => Ok []
  | anim0 :: _ =>
      let keys := children anim0 in
      if Nat.eqb (List.length timeKeys) (List.length keys)
      then read_keys read keys []
      else Raise AssertionError
  end.

Definition Channels : Type :=
  (list (option string) * list Vec3 * list Vec3 * list Qc)%type.

(** Lines 81-111: the camera's channels: [timeKeys], [camPositions],
    [camRotations], [camZoomVals].  A channel with no Animation element
    leaves its list empty. *)
Definition read_channels (cameraNode : Element) : result Channels :=
  (pos <- read_position_channel cameraNode ;;
   let timeKeys := fst pos in
   let camPositions := snd pos in
   camRotations <- read_checked_channel cameraNode path_orientation_Animation
                                        read_rotation_key timeKeys ;;
   camZoomVals <- read_checked_channel cameraNode path_zoom_Animation
                                       read_zoom_key timeKeys ;;
   Ok (timeKeys, camPositions, camRotations, camZoomVals))%result.

(** [ob.matrix_world = m]: the object takes the matrix, and its location
    and rotation are read off it. *)
Definition assign_matrix_world (m : Mat4) (o : Object) : Object :=
  mkObject (ob_type o) (name o) m (to_translation m) (matrix_to_euler m)
           (lens o) (display_size o) (empty_display_type o)
           (empty_display_size o).

(** Line 117 *)
Definition blenderScale : Qc := Z2Qc 1 / Z2Qc 1000 * PixelsPerMM.

(** Line 120 *)
Definition mToZUp : Mat4 := to_4x4 (axis_conversion "Z" "Y" "-Y" "Z").

(** Lines 129-150: the body of the loop over the frames. *)
Definition camera_frame (width : Z) (cameraObject : option nat)
    (camPositions camRotations : list Vec3) (camZoomVals : list Qc)
    (i : nat) : M unit :=
  (frame_set (Z.of_nat i) ;;;
   zoom <- lift (index camZoomVals i) ;;
   l <- lift (zoomToLens zoom (Z2Qc width)) ;;
   setattr cameraObject (set_lens l) ;;;
   keyframe_insert_lens cameraObject (Z.of_nat i) ;;;
   orientation <- lift (index camRotations i) ;;
   let eul := vec3_map (fun elem => - radians elem) orientation in
   location <- lift (index camPositions i) ;;
   let location := vec3_map (fun elem => blenderScale * elem) location in
   let mat_rot := euler_to_matrix eul "ZYX" in
   let mat_loc := Translation location in
   let mat := mat_loc @@ to_4x4 mat_rot in
   setattr cameraObject (assign_matrix_world (mToZUp @@ mat)) ;;;
   keyframe_insert_menu_LocRot)%scene.

(** Lines 157-167: the body of the loop over the anchor nodes. *)
Definition anchor_point (anchorNode : Element) : M unit :=
  (let anchorName := find anchorNode path_Name in
   let positionNode := find anchorNode path_position_Default_p3 in
   vec <- lift (read_xyz positionNode) ;;
   let location := vec3_map (fun elem => blenderScale * elem) vec in
   empty_add "ARROWS" location ;;;
   anchorObject <- gets active_object ;;
   nm <- lift match anchorName with
              | None => Raise AttributeError
              | Some n => match text n with
                          | None => Raise TypeError
                          | Some t => Ok t
                          end
              end ;;
   setattr anchorObject (set_name nm) ;;;
   mw <- getattr anchorObject matrix_world ;;
   setattr anchorObject (assign_matrix_world (mToZUp @@ mw)) ;;;
   rx <- getattr anchorObject (fun o => vx (rotation_euler o)) ;;
   setattr anchorObject (set_rotation_euler_x (rx - radians (Z2Qc 90))) ;;;
   setattr anchorObject (set_empty_display_size (Q2Qc (1 # 10))))%scene.

(** [int(avSettingsNode.find(child).text)] *)
Definition read_setting (avSettingsNode : option Element) (child : string)
  : result Z :=
  (t <- find_text avSettingsNode [Child child] ;; py_int t)%result.

(** Lines 66-69: width, height and frame rate. *)
Definition read_settings (root : Element) : result (Z * Z * Z) :=
  (let avSettingsNode := find root path_AudioVideoSettings in
   width <- read_setting avSettingsNode "Width" ;;
   height <- read_setting avSettingsNode "Height" ;;
   frameRate <- read_setting avSettingsNode "FrameRate" ;;
   Ok (width, height, frameRate))%result.

Definition import_hitfilm_composite (root : Element) : M Status :=
  (settings <- lift (read_settings root) ;;
   let '(width, height, frameRate) := settings in
   modify (set_resolution_x width) ;;;
   modify (set_resolution_y height) ;;;
   modify (set_fps frameRate) ;;;
   match find root path_CameraLayer with
   | None => ret CANCELLED
   | Some cameraNode =>
       channels <- lift (read_channels cameraNode) ;;
       let '(timeKeys, camPositions, camRotations, camZoomVals) := channels in
       modify (set_frame_end (Z.of_nat (List.length timeKeys))) ;;;
       camera_add ;;;
       cameraObject <- gets active_object ;;
       setattr cameraObject (set_display_size (Q2Qc (2 # 10))) ;;;
       setattr cameraObject (set_name "ARCamera") ;;;
       for_each (seq 0 (List.length timeKeys))
                (camera_frame width cameraObject
                              camPositions camRotations camZoomVals) ;;;
       frame_set 0 ;;;
       let anchorNodes := findall root path_PointLayer in
       for_each anchorNodes anchor_point ;;;
       ret FINISHED
   end)%scene.

End Importer.

(** ** Notions used in the statements *)

(** The number of elements tagged [t] in the document, root included. *)
Definition count_tag (t : string) (root : Element) : nat :=
  List.length (filter (fun e => String.eqb (tag e) t)
                      (root :: descendants root)).

(** The same document with the value of every Time attribute blanked: two
    documents that differ only in Time values have the same image. *)
Definition blank_time_attrib (a : list (string * string))
  : list (string * string) :=
  map (fun kv => if String.eqb (fst kv) "Time" then (fst kv, "") else kv) a.

Fixpoint blank_time (e : Element) : Element :=
  match e with
  | Elem t a x cs => Elem t (blank_time_attrib a) x (map blank_time cs)
  end.

(** The keys of a camera channel: the children of the first Animation
    element found, or [None] when the channel is absent. *)
Definition channel_keys (cameraNode : Element) (path : list step)
  : option (list Element) :=
  match findall cameraNode path with
  | [] => None
  | anim :: _ => Some (children anim)
  end.

Definition channel_length (cameraNode : Element) (path : list step) : nat :=
  match channel_keys cameraNode path with
  | None => 0
  | Some keys => List.length keys
  end.

Definition absent (cameraNode : Element) (path : list step) : bool :=
  match channel_keys cameraNode path with
  | None => true
  | Some _ => false
  end.

Definition is_ok {A : Type} (r : result A) : bool :=
  match r with
  | Ok _ => true
  | Raise _ => false
  end.

Definition keys_ok {A : Type} (read : Element -> result A)
    (keys : option (list Element)) : bool :=
  match keys with
  | None => true
  | Some ks => forallb (fun k => is_ok (read k)) ks
  end.

(** A computation leaves the part [proj] of the scene as it found it,
    whether it returns or raises. *)
Definition keeps {A X : Type} (proj : Scene -> X) (m : M A) : Prop :=
  forall s s' r, m s = (s', r) -> proj s' = proj s.

(** 3x3 matrix product. *)
Definition mat3_col (m : Mat3) (pick : Vec3 -> Qc) : Vec3 :=
  mkVec3 (pick (m3_0 m)) (pick (m3_1 m)) (pick (m3_2 m)).

Definition mat3_row_mul (r : Vec3) (b : Mat3) : Vec3 :=
  mkVec3 (dot3 r (mat3_col b vx)) (dot3 r (mat3_col b vy))
         (dot3 r (mat3_col b vz)).

Definition mat3_mul (a b : Mat3) : Mat3 :=
  mkMat3 (mat3_row_mul (m3_0 a) b) (mat3_row_mul (m3_1 a) b)
         (mat3_row_mul (m3_2 a) b).

Section Statements.

Context {host : Host}.

(** Every key of every present channel of the camera can be read. *)
Definition well_formed_camera (cameraNode : Element) : bool :=
  keys_ok read_position_key (channel_keys cameraNode path_position_Animation)
  && keys_ok read_rotation_key
             (channel_keys cameraNode path_orientation_Animation)
  && keys_ok read_zoom_key (channel_keys cameraNode path_zoom_Animation).

(** The rotation and zoom channels, when present, have as many keys as the
    position channel (none when the position channel is absent). *)
Definition matches_position (cameraNode : Element) (path : list step) : bool :=
  absent cameraNode path
  || Nat.eqb (channel_length cameraNode path)
             (channel_length cameraNode path_position_Animation).

Definition lengths_agree (cameraNode : Element) : bool :=
  matches_position cameraNode path_orientation_Animation
  && matches_position cameraNode path_zoom_Animation.

(** The reading of the specification: a channel may be absent, and only
    the non-empty channels have to agree in length with one another. *)
Definition has_absent_channel (cameraNode : Element) : bool :=
  absent cameraNode path_position_Animation
  || absent cameraNode path_orientation_Animation
  || absent cameraNode path_zoom_Animation.

Definition nonempty_agree (a b : nat) : bool :=
  Nat.eqb a 0 || Nat.eqb b 0 || Nat.eqb a b.

Definition nonempty_channels_agree (cameraNode : Element) : bool :=
  let p := channel_length cameraNode path_position_Animation in
  let r := channel_length cameraNode path_orientation_Animation in
  let z := channel_length cameraNode path_zoom_Animation in
  nonempty_agree p r && nonempty_agree p z && nonempty_agree r z.

(** Every non-empty channel of the camera has [n] keys, and one has. *)
Definition nonempty_channels_have (cameraNode : Element) (n : nat) : bool :=
  let lengths := [channel_length cameraNode path_position_Animation;
                  channel_length cameraNode path_orientation_Animation;
                  channel_length cameraNode path_zoom_Animation] in
  forallb (fun l => Nat.eqb l 0 || Nat.eqb l n) lengths
  && existsb (fun l => Nat.eqb l n) lengths.

(** The Coordinate Transformer in the words of the specification
    (section 4.4, steps 1 to 4). *)
Definition scale_position (p : Vec3) : Vec3 :=
  vec3_map (fun x => Z2Qc 1 / Z2Qc 1000 * PixelsPerMM * x) p.

Definition rotation_ZYX (r : Vec3) : Mat3 :=
  euler_to_matrix (vec3_map (fun x => radians (- x)) r) "ZYX".

Definition basis_change : Mat3 := axis_conversion "Z" "Y" "-Y" "Z".

Definition local_transform (p r : Vec3) : Mat4 :=
  Translation (scale_position p) @@ to_4x4 (rotation_ZYX r).

Definition world_transform (p r : Vec3) : Mat4 :=
  to_4x4 basis_change @@ local_transform p r.

(** The focal length keyed for a zoom sample. *)
Definition focal_length (zoom : Qc) (width : Z) : Qc :=
  Z2Qc 36 * (zoom / PixelsPerMM) / (Z2Qc width / PixelsPerMM).

(** The two keys of frame [i]: the lens, then location and rotation as
    they are read off the world transform. *)
Definition frame_keys (ob : nat) (width : Z)
    (camPositions camRotations : list Vec3) (camZoomVals : list Qc)
    (i : nat) : list Keyframe :=
  let m := world_transform (nth i camPositions vec3_zero)
                           (nth i camRotations vec3_zero) in
  [KeyLens ob (Z.of_nat i) (focal_length (nth i camZoomVals 0) width);
   KeyLocRot ob (Z.of_nat i) (to_translation m) (matrix_to_euler m)].

(** The marker made for an anchor named [nm] at source position [v]. *)
Definition anchor_matrix (v : Vec3) : Mat4 :=
  to_4x4 basis_change @@ Translation (scale_position v).

Definition anchor_object (nm : string) (v : Vec3) : Object :=
  let m := anchor_matrix v in
  let e := matrix_to_euler m in
  mkObject "EMPTY" nm m (to_translation m)
           (mkVec3 (vx e - radians (Z2Qc 90)) (vy e) (vz e))
           (Z2Qc 50) (Z2Qc 1) "ARROWS" (Q2Qc (1 # 10)).

(** Name and source position of an anchor node, as lines 157-159 and 164
    read them. *)
Definition read_anchor (anchorNode : Element) : result (string * Vec3) :=
  (vec <- read_xyz (find anchorNode path_position_Default_p3) ;;
   match find anchorNode path_Name with
   | None => Raise AttributeError
   | Some n => match text n with
               | None => Raise TypeError
               | Some t => Ok (t, vec)
               end
   end)%result.

(** The scene after frame [i], when the camera object was [o] before. *)
Definition after_frame (pre : list Object) (s : Scene) (o : Object) (i : nat) (l : Qc)
    (p r : Vec3) : Scene :=
  mkScene (resolution_x s) (resolution_y s) (fps s) (frame_end s)
          (Z.of_nat i)
          (pre ++ [assign_matrix_world (world_transform p r) (set_lens l o)])
          (Some (List.length pre))
          (keyframes s
           ++ [KeyLens (List.length pre) (Z.of_nat i) l;
               KeyLocRot (List.length pre) (Z.of_nat i)
                         (to_translation (world_transform p r))
                         (matrix_to_euler (world_transform p r))]).

(** The markers made for the anchor nodes, one each, in document order. *)
Definition markers_of (nodes : list Element) (added : list Object) : Prop :=
  Forall2 (fun node o => exists nm v,
             read_anchor node = Ok (nm, v) /\ o = anchor_object nm v)
          nodes added.

End Statements.

(** ** A sample host and sample documents

    A host to run the importer on example documents: decimal literals for
    [int] and [float], and first-order (small-angle) rotations in place of
    the trigonometry of mathutils. *)
Module Sample.

Definition digit (c : Ascii.ascii) : option Z :=
  let n := Ascii.nat_of_ascii c in
  if (Nat.leb 48 n && Nat.leb n 57)%bool
  then Some (Z.of_nat (n - 48)) else None.

Fixpoint digits (s : string) (acc : Z) : option Z :=
  match s with
  | EmptyString => Some acc
  | String c s' =>
      match digit c with
      | Some d => digits s' (10 * acc + d)%Z
      | None => None
      end
  end.

Definition natural (s : string) : option Z :=
  match s with
  | EmptyString => None
  | _ => digits s 0%Z
  end.

Definition parse_int (s : string) : option Z :=
  match s with
  | String "-"%char s' => option_map Z.opp (natural s')
  | _ => natural s
  end.

Fixpoint split_dot (s : string) : string * option string :=
  match s with
  | EmptyString => (EmptyString, None)
  | String c s' =>
      if Ascii.eqb c "."%char then (EmptyString, Some s')
      else let (a, b) := split_dot s' in (String c a, b)
  end.

Definition decimal (s : string) : option Qc :=
  let (a, b) := split_dot s in
  match natural a, b with
  | Some ip, None => Some (Z2Qc ip)
  | Some ip, Some f =>
      match natural f with
      | Some fp =>
          Some (Z2Qc ip + Z2Qc fp / Z2Qc (10 ^ Z.of_nat (String.length f)))
      | None => None
      end
  | None, _ => None
  end.

Definition parse_float (s : string) : option Qc :=
  match s with
  | String "-"%char s' => option_map Qcopp (decimal s')
  | _ => decimal s
  end.

(** The rotation by the angles [e], to first order: identity plus the
    cross-product matrix of [e]. *)
Definition linear_rotation (e : Vec3) (order : string) : Mat3 :=
  mkMat3 (mkVec3 1 (- vz e) (vy e))
         (mkVec3 (vz e) 1 (- vx e))
         (mkVec3 (- vy e) (vx e) 1).

Definition linear_euler (m : Mat4) : Vec3 :=
  mkVec3 (wy (row2 m)) (wz (row0 m)) (wx (row1 m)).

(** Source up Y goes to target up Z and source forward Z to target
    forward -Y. *)
Definition y_up_to_z_up (from_forward from_up to_forward to_up : string)
  : Mat3 :=
  mkMat3 (mkVec3 1 0 0) (mkVec3 0 0 (- (1))) (mkVec3 0 1 0).

(** pi / 180, to nine decimals. *)
Definition deg_to_rad : Qc := Q2Qc (17453293 # 1000000000).

Definition host : Host :=
  {| int_of_string := parse_int;
     float_of_string := parse_float;
     degToRad := deg_to_rad;
     euler_to_matrix := linear_rotation;
     axis_conversion := y_up_to_z_up;
     matrix_to_euler := linear_euler |}.

(** Document builders. *)
Definition node (t : string) (cs : list Element) : Element :=
  Elem t [] None cs.
Definition leaf (t : string) (x : string) : Element :=
  Elem t [] (Some x) [].
Definition xyz (t : string) (x y z : string) : Element :=
  Elem t [("X", x); ("Y", y); ("Z", z)] None [].
Definition key (time : string) (value : Element) : Element :=
  Elem "Key" [("Type", "0"); ("Time", time)] None [node "Value" [value]].

Definition settings (w h r : string) : Element :=
  node "AudioVideoSettings"
       [leaf "Width" w; leaf "Height" h; leaf "FrameRate" r].

Definition channel (t : string) (keys : list Element) : Element :=
  node t [node "Animation" keys].

Definition camera (props : list Element) : Element :=
  node "CameraLayer"
       [node "LayerBase" [leaf "Name" "AR Camera"];
        node "PropertyManager" props].

Definition point (nm x y z : string) : Element :=
  node "PointLayer"
       [node "LayerBase" [leaf "Name" nm];
        node "PropertyManager"
             [node "position" [node "Default" [xyz "p3" x y z]]]].

Definition composite (w h r : string) (layers : list Element) : Element :=
  node "BiffCompositeShot"
       [node "CompositionAsset" [settings w h r; node "Layers" layers]].

Definition empty_scene : Scene :=
  mkScene 1920 1080 24 250 1 [] None [].

(** A scene with other render settings, and one that holds an object. *)
Definition small_scene : Scene :=
  mkScene 640 480 25 100 7 [] None [].

Definition target : Object :=
  mkObject "EMPTY" "Target" (Translation (mkVec3 1 1 1)) (mkVec3 1 1 1)
           vec3_zero (Z2Qc 50) (Z2Qc 1) "PLAIN_AXES" (Z2Qc 1).

Definition scene_with_target : Scene :=
  mkScene 1920 1080 24 250 1 [target] (Some 0%nat) [].

(** No camera layer, two point layers. *)
Definition doc_points_only : Element :=
  composite "1920" "1080" "30"
            [point "Anchor 1" "1000" "0" "0"; point "Anchor 2" "0" "500" "250"].

(** A camera with a one-key rotation channel and no position channel. *)
Definition doc_rotation_only : Element :=
  composite "1920" "1080" "30"
    [camera [channel "orientation" [key "0" (xyz "Orientation3D" "10" "20" "30")]]].

(** A camera with one-key position and rotation channels and no zoom. *)
Definition doc_no_zoom : Element :=
  composite "1920" "1080" "30"
    [camera [channel "position" [key "0" (xyz "FXPoint3_32f" "100" "200" "300")];
             channel "orientation" [key "0" (xyz "Orientation3D" "10" "20" "30")]]].

(** A camera with one-key rotation and zoom channels and no position. *)
Definition doc_no_position : Element :=
  composite "1920" "1080" "30"
    [camera [channel "orientation" [key "0" (xyz "Orientation3D" "10" "20" "30")];
             channel "zoom" [key "0" (leaf "float" "1500")]]].

(** A camera with two keys on every channel, and two anchors. *)
Definition doc_full_at (t0 t1 : string) : Element :=
  composite "1920" "1080" "30"
    [camera [channel "position"
               [key t0 (xyz "FXPoint3_32f" "1000" "0" "0");
                key t1 (xyz "FXPoint3_32f" "1000" "2000" "-500")];
             channel "orientation"
               [key t0 (xyz "Orientation3D" "0" "0" "0");
                key t1 (xyz "Orientation3D" "10" "-20" "30")];
             channel "zoom"
               [key t0 (leaf "float" "1500");
                key t1 (leaf "float" "1600.5")]];
     point "Anchor 1" "1000" "0" "0";
     point "Anchor 2" "0" "500" "250"].

Definition doc_full : Element := doc_full_at "0" "1".

(** The first camera layer of a document. *)
Definition camera_of (root : Element) : Element :=
  match find root path_CameraLayer with
  | Some cameraNode => cameraNode
  | None => root
  end.


(** A camera layer directly under the root element. *)
Definition doc_shallow_camera : Element :=
  node "BiffCompositeShot"
       [node "CompositionAsset" [settings "1920" "1080" "30"];
        camera [channel "position"
                  [key "0" (xyz "FXPoint3_32f" "100" "200" "300")]]].

(** A camera with one-key position and zoom channels and no rotation. *)
Definition doc_no_rotation : Element :=
  composite "1920" "1080" "30"
    [camera [channel "position" [key "0" (xyz "FXPoint3_32f" "100" "200" "300")];
             channel "zoom" [key "0" (leaf "float" "1500")]]].

(** The full camera in a composition of width 0. *)
Definition doc_zero_width : Element :=
  composite "0" "1080" "30"
    [camera [channel "position" [key "0" (xyz "FXPoint3_32f" "100" "200" "300")];
             channel "orientation" [key "0" (xyz "Orientation3D" "10" "20" "30")];
             channel "zoom" [key "0" (leaf "float" "1500")]]].

(** A settings block without a frame rate. *)
Definition doc_no_frame_rate : Element :=
  node "BiffCompositeShot"
       [node "CompositionAsset"
             [node "AudioVideoSettings"
                   [leaf "Width" "1920"; leaf "Height" "1080"];
              node "Layers" [camera []]]].

(** A camera whose second position key has no point element. *)
Definition doc_bad_position_key : Element :=
  composite "1920" "1080" "30"
    [camera [channel "position"
               [key "0" (xyz "FXPoint3_32f" "100" "200" "300");
                key "1" (node "Nothing" []);
                key "2" (xyz "FXPoint3_32f" "100" "200" "300")]]].

(** A point layer without a position, and one without a name. *)
Definition point_no_position : Element :=
  node "PointLayer" [node "LayerBase" [leaf "Name" "Lost"]].


End Sample.

(** ** Further notions used in the statements *)

(** The elements tagged [t] that lie below the children of the root. *)
Definition tagged_below_children (t : string) (root : Element) : bool :=
  existsb (fun c => String.eqb (tag c) t)
          (flat_map descendants (children root)).

(** The number of elements tagged [t] that lie below the children of the
    root. *)
Definition count_below_children (t : string) (root : Element) : nat :=
  List.length (filter (fun e => String.eqb (tag e) t)
                      (flat_map descendants (children root))).

(** The object a key belongs to. *)
Definition key_object (k : Keyframe) : nat :=
  match k with
  | KeyLens ob _ _ => ob
  | KeyLocRot ob _ _ _ => ob
  end.

(** Binary64 numbers by mantissa and exponent: the number nearest to
    2.8352, which is 6384302831760415 * 2^-51; 36 = 4.5 * 2^3; 0.5; 2; and
    the least positive number 2^-1074, written 5e-324. *)
Definition binary64_2_8352 : spec_float :=
  S754_finite false 6384302831760415 (-51).
Definition binary64_36 : spec_float :=
  S754_finite false 5066549580791808 (-47).
Definition binary64_half : spec_float :=
  S754_finite false 4503599627370496 (-53).
Definition binary64_2 : spec_float :=
  S754_finite false 4503599627370496 (-51).
Definition binary64_min : spec_float :=
  S754_finite false 1 (-1074).

(** The formula of the specification for the focal length, every operation
    rounded to binary64. *)
Definition lens_formula (zoom width : spec_float) : spec_float :=
  SFdiv 53 1024
    (SFmul 53 1024 binary64_36 (SFdiv 53 1024 zoom binary64_2_8352))
    (SFdiv 53 1024 width binary64_2_8352).

(** A computation relates the scene it ends in, returning or raising, to
    the scene it started from. *)
Definition respects {A : Type} (R : Scene -> Scene -> Prop) (m : M A) : Prop :=
  forall s s' r, m s = (s', r) -> R s s'.

(** The first [n] objects stay as they are and no object is removed. *)
Definition keeps_first (n : nat) (s s' : Scene) : Prop :=
  (n <= List.length (objects s))%nat ->
  (n <= List.length (objects s'))%nat
  /\ firstn n (objects s') = firstn n (objects s).

(** The keys inserted so far stay, in their order. *)
Definition keeps_keys (s s' : Scene) : Prop :=
  exists keys, keyframes s' = keyframes s ++ keys.

Definition extends_scene (n : nat) (s s' : Scene) : Prop :=
  keeps_first n s s' /\ keeps_keys s s'.

(** ** Arithmetic of the converters *)

Lemma Qc_nonzero (q : Qc) : q <> 0 -> Qeq_bool q 0 = false.
Proof.
  intros Hq. destruct (Qeq_bool q 0) eqn:E; [|reflexivity].
  exfalso. apply Hq. apply Qc_is_canon. apply Qeq_bool_eq. exact E.
Qed.

Lemma PixelsPerMM_nonzero : PixelsPerMM <> 0.
Proof. intros H. apply (f_equal this) in H. discriminate H. Qed.

Lemma truediv_ok (a b : Qc) : b <> 0 -> truediv a b = Ok (a / b).
Proof. intros Hb. unfold truediv. now rewrite (Qc_nonzero b Hb). Qed.

Lemma Qcdiv_nonzero (a b : Qc) : a <> 0 -> b <> 0 -> a / b <> 0.
Proof.
  intros Ha Hb H. unfold Qcdiv in H.
  apply Qcmult_integral in H. destruct H as [H|H]; [now apply Ha|].
  pose proof (Qcmult_inv_r b Hb) as E. rewrite H, Qcmult_0_r in E.
  symmetry in E. exact (Q_apart_0_1 E).
Qed.

Lemma zoomToLens_value (l w : Qc) :
  w <> 0 ->
  zoomToLens l w = Ok (Z2Qc 36 * (l / PixelsPerMM) / (w / PixelsPerMM)).
Proof.
  intros Hw. unfold zoomToLens.
  rewrite (truediv_ok l _ PixelsPerMM_nonzero). cbn [rbind].
  rewrite (truediv_ok w _ PixelsPerMM_nonzero). cbn [rbind].
  rewrite truediv_ok; [reflexivity|].
  apply Qcdiv_nonzero; [exact Hw | exact PixelsPerMM_nonzero].
Qed.

Lemma Qcdiv_zero_l (b : Qc) : 0 / b = 0.
Proof. unfold Qcdiv. apply Qcmult_0_l. Qed.

Lemma zoomToLens_ok_inv (z x l : Qc) :
  zoomToLens z x = Ok l ->
  x <> 0 /\ l = Z2Qc 36 * (z / PixelsPerMM) / (x / PixelsPerMM).
Proof.
  unfold zoomToLens.
  rewrite (truediv_ok z _ PixelsPerMM_nonzero). cbn [rbind].
  rewrite (truediv_ok x _ PixelsPerMM_nonzero). cbn [rbind].
  unfold truediv at 1.
  destruct (Qeq_bool (x / PixelsPerMM)%Qc 0) eqn:E; cbn [rbind]; intros H;
    [discriminate H|].
  injection H as <-. split; [|reflexivity].
  intros ->. rewrite Qcdiv_zero_l in E. discriminate E.
Qed.

(** ** Documents and paths *)

Lemma Element_forall_ind (P : Element -> Prop) :
  (forall t a x cs, Forall P cs -> P (Elem t a x cs)) -> forall e, P e.
Proof.
  intros IH. fix rec 1. intros [t a x cs]. apply IH.
  induction cs as [|c cs' IHcs]; constructor; [apply rec | exact IHcs].
Qed.

Lemma descendants_unfold (e : Element) :
  descendants e = flat_map (fun c => c :: descendants c) (children e).
Proof.
  destruct e as [t a x cs]. cbn [children].
  induction cs as [|c cs' IHcs]; [reflexivity|].
  simpl in *. now rewrite IHcs.
Qed.

Lemma child_is_descendant (e c : Element) :
  In c (children e) -> In c (descendants e).
Proof.
  intros Hc. rewrite descendants_unfold. apply in_flat_map.
  exists c. split; [exact Hc | now left].
Qed.

Lemma descendants_trans (e : Element) :
  forall d c, In d (descendants e) -> In c (descendants d) ->
              In c (descendants e).
Proof.
  induction e as [t a x cs IH] using Element_forall_ind.
  intros d c Hd Hc. rewrite descendants_unfold in Hd |- *. cbn [children] in *.
  apply in_flat_map in Hd. destruct Hd as (k & Hk & Hd).
  apply in_flat_map. exists k. split; [exact Hk|].
  destruct Hd as [Hd|Hd].
  - subst d. now right.
  - right. rewrite Forall_forall in IH. now apply (IH k Hk d c).
Qed.

Lemma iterfind_descendant_child (root : Element) (t : string) :
  iterfind root [Self; Descendant_any; Child t]
  = flat_map (fun elem => filter (fun e => String.eqb (tag e) t)
                                 (children elem))
             (descendants root).
Proof.
  unfold iterfind. cbn [fold_left select flat_map]. now rewrite app_nil_r.
Qed.

Lemma iterfind_descendant_child_in (root c : Element) (t : string) :
  In c (iterfind root [Self; Descendant_any; Child t]) ->
  In c (descendants root) /\ tag c = t.
Proof.
  rewrite iterfind_descendant_child. intros Hc.
  apply in_flat_map in Hc. destruct Hc as (d & Hd & Hc).
  apply filter_In in Hc. destruct Hc as [Hc Ht].
  split; [|now apply String.eqb_eq].
  eapply descendants_trans; [exact Hd | now apply child_is_descendant].
Qed.

Lemma count_tag_zero_find (root : Element) (t : string) :
  count_tag t root = 0%nat -> find root [Self; Descendant_any; Child t] = None.
Proof.
  unfold count_tag, find. intros Hz.
  destruct (iterfind root [Self; Descendant_any; Child t]) as [|c l] eqn:E;
    [reflexivity|exfalso].
  assert (Hc : In c (iterfind root [Self; Descendant_any; Child t]))
    by (rewrite E; now left).
  apply iterfind_descendant_child_in in Hc. destruct Hc as [Hc Ht].
  apply length_zero_iff_nil in Hz.
  assert (Hin : In c (filter (fun e => String.eqb (tag e) t)
                             (root :: descendants root))).
  { apply filter_In. split; [now right | now apply String.eqb_eq]. }
  rewrite Hz in Hin. exact Hin.
Qed.

(** ** The import without a camera layer *)

Section NoCamera.

Context {host : Host}.

Lemma import_no_camera (root : Element) (s : Scene) (w h f : Z) :
  read_settings root = Ok (w, h, f) ->
  find root path_CameraLayer = None ->
  import_hitfilm_composite root s
  = (set_fps f (set_resolution_y h (set_resolution_x w s)), Ok CANCELLED).
Proof.
  intros Hs Hc. unfold import_hitfilm_composite, bind, lift.
  rewrite Hs, Hc. reflexivity.
Qed.

End NoCamera.

(** ** Reasoning on scene computations *)

Lemma bind_ok {A B : Type} (m : M A) (k : A -> M B) (s s1 : Scene) (a : A) :
  m s = (s1, Ok a) -> bind m k s = k a s1.
Proof. intros E. unfold bind. now rewrite E. Qed.

Lemma bind_raise {A B : Type} (m : M A) (k : A -> M B) (s s1 : Scene) (e : exn) :
  m s = (s1, Raise e) -> bind m k s = (s1, Raise e).
Proof. intros E. unfold bind. now rewrite E. Qed.

Lemma bind_ok_inv {A B : Type} (m : M A) (k : A -> M B) (s s' : Scene) (b : B) :
  bind m k s = (s', Ok b) ->
  exists a s1, m s = (s1, Ok a) /\ k a s1 = (s', Ok b).
Proof.
  unfold bind. destruct (m s) as [s1 [a|e]]; intros E.
  - now exists a, s1.
  - discriminate E.
Qed.

Lemma lift_ok_inv {A : Type} (r : result A) (s s' : Scene) (a : A) :
  lift r s = (s', Ok a) -> r = Ok a /\ s' = s.
Proof. unfold lift. intros E. injection E as -> ->. now split. Qed.

Section Keeps.

Context {X : Type} (proj : Scene -> X).

Lemma keeps_ret {A : Type} (a : A) : keeps proj (ret a).
Proof. intros s s' r E. now injection E as <- _. Qed.

Lemma keeps_raise {A : Type} (e : exn) : keeps proj (@raise A e).
Proof. intros s s' r E. now injection E as <- _. Qed.

Lemma keeps_lift {A : Type} (x : result A) : keeps proj (lift x).
Proof. intros s s' r E. now injection E as <- _. Qed.

Lemma keeps_gets {A : Type} (f : Scene -> A) : keeps proj (gets f).
Proof. intros s s' r E. now injection E as <- _. Qed.

Lemma keeps_modify (f : Scene -> Scene) :
  (forall s, proj (f s) = proj s) -> keeps proj (modify f).
Proof. intros Hf s s' r E. injection E as <- _. apply Hf. Qed.

Lemma keeps_bind {A B : Type} (m : M A) (k : A -> M B) :
  keeps proj m -> (forall a, keeps proj (k a)) -> keeps proj (bind m k).
Proof.
  intros Hm Hk s s' r. unfold bind.
  destruct (m s) as [s1 [a|e]] eqn:E; intros E'.
  - rewrite (Hk a _ _ _ E'). exact (Hm _ _ _ E).
  - injection E' as <- _. exact (Hm _ _ _ E).
Qed.

Lemma keeps_for_each {A : Type} (l : list A) (body : A -> M unit) :
  (forall x, keeps proj (body x)) -> keeps proj (for_each l body).
Proof.
  intros Hb. induction l as [|x l IH]; cbn [for_each].
  - apply keeps_ret.
  - apply keeps_bind; [apply Hb | intros _; exact IH].
Qed.

Lemma keeps_getattr {A : Type} (ob : option nat) (attr : Object -> A) :
  keeps proj (getattr ob attr).
Proof.
  intros s s' r. unfold getattr.
  destruct ob as [i|]; [destruct (nth_error (objects s) i)|];
    intros E; now injection E as <- _.
Qed.

Lemma keeps_setattr (ob : option nat) (upd : Object -> Object) :
  (forall v s, proj (set_objects v s) = proj s) -> keeps proj (setattr ob upd).
Proof.
  intros Hp s s' r. unfold setattr.
  destruct ob as [i|]; intros E; injection E as <- _; [apply Hp | reflexivity].
Qed.

Lemma keeps_add_object (o : Object) :
  (forall v s, proj (set_objects v s) = proj s) ->
  (forall v s, proj (set_active_object v s) = proj s) ->
  keeps proj (add_object o).
Proof.
  intros Ho Ha s s' r E. unfold add_object in E. injection E as <- _.
  now rewrite Ha, Ho.
Qed.

Lemma keeps_add_key (k : Keyframe) :
  (forall v s, proj (set_keyframes v s) = proj s) -> keeps proj (add_key k).
Proof. intros Hk. apply keeps_modify. intros s. apply Hk. Qed.

End Keeps.

(** ** Lists of objects *)

Lemma nth_error_snoc {A : Type} (pre : list A) (o : A) :
  nth_error (pre ++ [o]) (List.length pre) = Some o.
Proof. induction pre as [|x pre IH]; [reflexivity | exact IH]. Qed.

Lemma update_nth_snoc {A : Type} (f : A -> A) (pre : list A) (o : A) :
  update_nth (List.length pre) f (pre ++ [o]) = pre ++ [f o].
Proof.
  induction pre as [|x pre IH]; [reflexivity|].
  cbn. now rewrite IH.
Qed.

(** ** The loop over the frames *)

Section Frames.

Context {host : Host}.

Lemma radians_opp (x : Qc) : radians (- x) = - radians x.
Proof. unfold radians. ring. Qed.

(** The matrix assigned on line 148 is the world transform of the
    specification. *)
Lemma code_world_transform (p r : Vec3) :
  mToZUp @@ (Translation (vec3_map (fun elem => blenderScale * elem) p)
             @@ to_4x4 (euler_to_matrix
                          (vec3_map (fun elem => - radians elem) r) "ZYX"))
  = world_transform p r.
Proof.
  unfold world_transform, local_transform, rotation_ZYX, scale_position,
    mToZUp, basis_change, blenderScale, vec3_map.
  now rewrite !radians_opp.
Qed.

Variables (w : Z) (pre : list Object).
Variables (ps rs : list Vec3) (zs : list Qc).

Lemma setattr_snoc (s : Scene) (o : Object) (upd : Object -> Object) :
  objects s = pre ++ [o] ->
  setattr (Some (List.length pre)) upd s
  = (set_objects (pre ++ [upd o]) s, Ok tt).
Proof. intros Ho. unfold setattr. now rewrite Ho, update_nth_snoc. Qed.

Lemma getattr_snoc {A : Type} (s : Scene) (o : Object) (attr : Object -> A) :
  objects s = pre ++ [o] ->
  getattr (Some (List.length pre)) attr s = (s, Ok (attr o)).
Proof. intros Ho. unfold getattr. now rewrite Ho, nth_error_snoc. Qed.

Lemma keyframe_insert_lens_snoc (s : Scene) (o : Object) (frame : Z) :
  objects s = pre ++ [o] ->
  keyframe_insert_lens (Some (List.length pre)) frame s
  = (set_keyframes
       (keyframes s ++ [KeyLens (List.length pre) frame (lens o)]) s, Ok tt).
Proof.
  intros Ho. unfold keyframe_insert_lens.
  now rewrite (bind_ok _ _ _ _ _ (getattr_snoc s o lens Ho)).
Qed.

Lemma keyframe_insert_menu_LocRot_snoc (s : Scene) (o : Object) :
  objects s = pre ++ [o] ->
  active_object s = Some (List.length pre) ->
  keyframe_insert_menu_LocRot s
  = (set_keyframes
       (keyframes s ++ [KeyLocRot (List.length pre) (frame_current s)
                                  (location o) (rotation_euler o)]) s, Ok tt).
Proof.
  intros Ho Ha. unfold keyframe_insert_menu_LocRot.
  rewrite (bind_ok _ _ s s (active_object s)) by reflexivity.
  rewrite Ha.
  rewrite (bind_ok _ _ _ _ _ (getattr_snoc s o location Ho)).
  rewrite (bind_ok _ _ _ _ _ (getattr_snoc s o rotation_euler Ho)).
  now rewrite (bind_ok _ _ s s (frame_current s)) by reflexivity.
Qed.

Lemma camera_frame_ok (s : Scene) (o : Object) (i : nat) (z l : Qc)
    (p r : Vec3) :
  objects s = pre ++ [o] ->
  active_object s = Some (List.length pre) ->
  nth_error zs i = Some z ->
  zoomToLens z (Z2Qc w) = Ok l ->
  nth_error rs i = Some r ->
  nth_error ps i = Some p ->
  camera_frame w (Some (List.length pre)) ps rs zs i s
  = (after_frame pre s o i l p r, Ok tt).
Proof.
  intros Ho Ha Hz Hl Hr Hp. unfold camera_frame.
  rewrite (bind_ok _ _ s (set_frame_current (Z.of_nat i) s) tt) by reflexivity.
  unfold index. rewrite Hz.
  rewrite (bind_ok _ _ _ _ z eq_refl). rewrite Hl.
  rewrite (bind_ok _ _ _ _ l eq_refl).
  erewrite bind_ok by (apply setattr_snoc; exact Ho).
  erewrite bind_ok by (apply keyframe_insert_lens_snoc; reflexivity).
  rewrite Hr. rewrite (bind_ok _ _ _ _ r eq_refl). rewrite Hp.
  rewrite (bind_ok _ _ _ _ p eq_refl). cbv zeta.
  erewrite bind_ok by (apply setattr_snoc; reflexivity).
  erewrite keyframe_insert_menu_LocRot_snoc by (first [reflexivity | exact Ha]).
  rewrite code_world_transform.
  unfold after_frame, set_keyframes, set_objects, set_frame_current. cbn.
  now rewrite Ha, <- app_assoc.
Qed.

Lemma camera_frame_ok_inv (s s' : Scene) (o : Object) (i : nat) :
  objects s = pre ++ [o] ->
  active_object s = Some (List.length pre) ->
  camera_frame w (Some (List.length pre)) ps rs zs i s = (s', Ok tt) ->
  exists z l p r,
    nth_error zs i = Some z /\ zoomToLens z (Z2Qc w) = Ok l
    /\ nth_error rs i = Some r /\ nth_error ps i = Some p.
Proof.
  intros Ho Ha. unfold camera_frame.
  rewrite (bind_ok _ _ s (set_frame_current (Z.of_nat i) s) tt) by reflexivity.
  unfold index.
  destruct (nth_error zs i) as [z|] eqn:Hz;
    [rewrite (bind_ok _ _ _ _ z eq_refl)
    |rewrite (bind_raise _ _ _ _ IndexError eq_refl); discriminate].
  destruct (zoomToLens z (Z2Qc w)) as [l|e] eqn:Hl;
    [rewrite (bind_ok _ _ _ _ l eq_refl)
    |rewrite (bind_raise _ _ _ _ e eq_refl); discriminate].
  erewrite bind_ok by (apply setattr_snoc; exact Ho).
  erewrite bind_ok by (apply keyframe_insert_lens_snoc; reflexivity).
  destruct (nth_error rs i) as [r|] eqn:Hr;
    [rewrite (bind_ok _ _ _ _ r eq_refl)
    |rewrite (bind_raise _ _ _ _ IndexError eq_refl); discriminate].
  destruct (nth_error ps i) as [p|] eqn:Hp;
    [rewrite (bind_ok _ _ _ _ p eq_refl)
    |rewrite (bind_raise _ _ _ _ IndexError eq_refl); discriminate].
  intros _. now exists z, l, p, r.
Qed.

Lemma frame_keys_at (i : nat) (z l : Qc) (p r : Vec3) :
  nth_error zs i = Some z -> zoomToLens z (Z2Qc w) = Ok l ->
  nth_error rs i = Some r -> nth_error ps i = Some p ->
  [KeyLens (List.length pre) (Z.of_nat i) l;
   KeyLocRot (List.length pre) (Z.of_nat i)
             (to_translation (world_transform p r))
             (matrix_to_euler (world_transform p r))]
  = frame_keys (List.length pre) w ps rs zs i.
Proof.
  intros Hz Hl Hr Hp. unfold frame_keys.
  rewrite (nth_error_nth _ _ 0 Hz), (nth_error_nth _ _ vec3_zero Hr),
    (nth_error_nth _ _ vec3_zero Hp).
  apply zoomToLens_ok_inv in Hl. destruct Hl as [_ ->]. reflexivity.
Qed.

(** A loop that returns has found the three samples of each of its frames,
    and has keyed each frame in turn; it touches the camera only. *)
Lemma camera_frames_ok_inv (n : nat) :
  forall (a : nat) (s s' : Scene) (o : Object),
    objects s = pre ++ [o] ->
    active_object s = Some (List.length pre) ->
    for_each (seq a n) (camera_frame w (Some (List.length pre)) ps rs zs) s
    = (s', Ok tt) ->
    (forall i, (a <= i < a + n)%nat ->
       exists z l p r,
         nth_error zs i = Some z /\ zoomToLens z (Z2Qc w) = Ok l
         /\ nth_error rs i = Some r /\ nth_error ps i = Some p)
    /\ (exists o', objects s' = pre ++ [o'] /\ name o' = name o
                   /\ display_size o' = display_size o
                   /\ ob_type o' = ob_type o)
    /\ active_object s' = Some (List.length pre)
    /\ keyframes s'
       = keyframes s
         ++ flat_map (frame_keys (List.length pre) w ps rs zs) (seq a n)
    /\ resolution_x s' = resolution_x s /\ resolution_y s' = resolution_y s
    /\ fps s' = fps s /\ frame_end s' = frame_end s.
Proof.
  induction n as [|n IH]; intros a s s' o Ho Ha E.
  - cbn in E. injection E as <-.
    repeat split; try reflexivity.
    + intros i Hi. lia.
    + now exists o.
    + exact Ha.
    + cbn. now rewrite app_nil_r.
  - cbn [seq for_each] in E.
    apply bind_ok_inv in E. destruct E as ([] & s1 & E1 & E).
    destruct (camera_frame_ok_inv s s1 o a Ho Ha E1)
      as (z & l & p & r & Hz & Hl & Hr & Hp).
    rewrite (camera_frame_ok s o a z l p r Ho Ha Hz Hl Hr Hp) in E1.
    injection E1 as <-.
    specialize (IH (S a) (after_frame pre s o a l p r) s'
                   (assign_matrix_world (world_transform p r) (set_lens l o))
                   eq_refl eq_refl E).
    destruct IH as (Hall & (o' & Ho' & Hn & Hd & Ht) & Ha' & Hk & Hx & Hy & Hf & He).
    repeat split; try assumption.
    + intros i Hi. destruct (Nat.eq_dec i a) as [->|Hne].
      * now exists z, l, p, r.
      * apply Hall. lia.
    + now exists o'.
    + rewrite Hk. cbn [after_frame keyframes seq flat_map].
      rewrite <- app_assoc. f_equal.
      now rewrite (frame_keys_at a z l p r Hz Hl Hr Hp).
Qed.

Lemma camera_frames_ok (n : nat) :
  forall (a : nat) (s : Scene) (o : Object),
    objects s = pre ++ [o] ->
    active_object s = Some (List.length pre) ->
    Z2Qc w <> 0 ->
    (a + n <= List.length zs)%nat -> (a + n <= List.length rs)%nat ->
    (a + n <= List.length ps)%nat ->
    exists s',
      for_each (seq a n) (camera_frame w (Some (List.length pre)) ps rs zs) s
      = (s', Ok tt).
Proof.
  induction n as [|n IH]; intros a s o Ho Ha Hw Hz Hr Hp.
  - now exists s.
  - cbn [seq for_each].
    destruct (nth_error zs a) as [z|] eqn:Ez;
      [|apply nth_error_None in Ez; lia].
    destruct (nth_error rs a) as [r|] eqn:Er;
      [|apply nth_error_None in Er; lia].
    destruct (nth_error ps a) as [p|] eqn:Ep;
      [|apply nth_error_None in Ep; lia].
    pose proof (zoomToLens_value z _ Hw) as Hl.
    rewrite (bind_ok _ _ _ _ _ (camera_frame_ok s o a z _ p r Ho Ha Ez Hl Er Ep)).
    apply (IH (S a) (after_frame pre s o a _ p r)
              (assign_matrix_world (world_transform p r) (set_lens _ o))
              eq_refl eq_refl Hw); lia.
Qed.

End Frames.

(** ** The loop over the anchor nodes *)

Section Anchors.

Context {host : Host}.

Lemma anchor_point_ok (anchorNode : Element) (s : Scene) (nm : string)
    (v : Vec3) :
  read_anchor anchorNode = Ok (nm, v) ->
  anchor_point anchorNode s = (fst (add_object (anchor_object nm v) s), Ok tt).
Proof.
  unfold read_anchor, anchor_point. cbv zeta.
  destruct (read_xyz (find anchorNode path_position_Default_p3))
    as [vec|e] eqn:Ev; cbn [rbind]; [|discriminate].
  destruct (find anchorNode path_Name) as [n|]; [|discriminate].
  destruct (text n) as [t|]; [|discriminate].
  intros H. injection H as -> ->.
  rewrite (bind_ok _ _ s s v eq_refl).
  erewrite bind_ok by reflexivity.
  erewrite bind_ok by reflexivity.
  cbn [active_object set_active_object].
  erewrite bind_ok by reflexivity.
  erewrite bind_ok by (apply (setattr_snoc (objects s)); reflexivity).
  erewrite bind_ok by (apply (getattr_snoc (objects s)); reflexivity).
  erewrite bind_ok by (apply (setattr_snoc (objects s)); reflexivity).
  erewrite bind_ok by (apply (getattr_snoc (objects s)); reflexivity).
  erewrite bind_ok by (apply (setattr_snoc (objects s)); reflexivity).
  cbv beta. erewrite (setattr_snoc (objects s)) by reflexivity.
  reflexivity.
Qed.

Lemma anchor_point_ok_inv (anchorNode : Element) (s s' : Scene) :
  anchor_point anchorNode s = (s', Ok tt) ->
  exists nm v, read_anchor anchorNode = Ok (nm, v).
Proof.
  unfold read_anchor, anchor_point. cbv zeta.
  destruct (read_xyz (find anchorNode path_position_Default_p3))
    as [vec|e] eqn:Ev; cbn [rbind];
    [rewrite (bind_ok _ _ s s vec eq_refl)
    |rewrite (bind_raise _ _ s s e eq_refl); discriminate].
  erewrite bind_ok by reflexivity.
  erewrite bind_ok by reflexivity.
  destruct (find anchorNode path_Name) as [n|];
    [|erewrite bind_raise by reflexivity; discriminate].
  destruct (text n) as [t|];
    [|erewrite bind_raise by reflexivity; discriminate].
  intros _. now exists t, vec.
Qed.

Lemma anchor_point_keeps {X : Type} (proj : Scene -> X) (anchorNode : Element) :
  (forall v s, proj (set_objects v s) = proj s) ->
  (forall v s, proj (set_active_object v s) = proj s) ->
  keeps proj (anchor_point anchorNode).
Proof.
  intros Ho Ha. unfold anchor_point. cbv zeta.
  repeat first
    [ apply keeps_bind; [|intros ?]
    | apply keeps_lift | apply keeps_gets | apply keeps_getattr
    | apply keeps_setattr; exact Ho
    | apply keeps_add_object; assumption ].
Qed.

Lemma anchors_ok_inv (nodes : list Element) :
  forall s s',
    for_each nodes anchor_point s = (s', Ok tt) ->
    exists added, markers_of nodes added /\ objects s' = objects s ++ added.
Proof.
  induction nodes as [|node nodes IH]; intros s s' E.
  - cbn in E. injection E as <-. exists []. split; [constructor|].
    now rewrite app_nil_r.
  - cbn [for_each] in E. apply bind_ok_inv in E.
    destruct E as ([] & s1 & E1 & E).
    destruct (anchor_point_ok_inv _ _ _ E1) as (nm & v & Hr).
    rewrite (anchor_point_ok _ s nm v Hr) in E1. injection E1 as <-.
    destruct (IH _ _ E) as (added & Hm & Ho).
    exists (anchor_object nm v :: added). split.
    + constructor; [now exists nm, v | exact Hm].
    + rewrite Ho. cbn. now rewrite <- app_assoc.
Qed.

Lemma anchors_ok (nodes : list Element) :
  forall s,
    forallb (fun node => is_ok (read_anchor node)) nodes = true ->
    exists s', for_each nodes anchor_point s = (s', Ok tt).
Proof.
  induction nodes as [|node nodes IH]; intros s H.
  - now exists s.
  - cbn in H. apply andb_true_iff in H. destruct H as [H1 H2].
    destruct (read_anchor node) as [[nm v]|] eqn:Hr; [|discriminate].
    cbn [for_each]. rewrite (bind_ok _ _ _ _ _ (anchor_point_ok _ s nm v Hr)).
    now apply IH.
Qed.

End Anchors.

(** ** The whole import *)

Section Returning.

Context {host : Host}.

(** What a returning import has read and written. *)
Lemma import_ok_inv (root : Element) (s s' : Scene) (st : Status) :
  import_hitfilm_composite root s = (s', Ok st) ->
  exists w h f,
    read_settings root = Ok (w, h, f)
    /\ match find root path_CameraLayer with
       | None =>
           st = CANCELLED
           /\ s' = set_fps f (set_resolution_y h (set_resolution_x w s))
       | Some cameraNode =>
           st = FINISHED
           /\ exists tk ps rs zs camob added,
               read_channels cameraNode = Ok (tk, ps, rs, zs)
               /\ (forall i, (i < List.length tk)%nat ->
                     exists z l p r,
                       nth_error zs i = Some z
                       /\ zoomToLens z (Z2Qc w) = Ok l
                       /\ nth_error rs i = Some r /\ nth_error ps i = Some p)
               /\ markers_of (findall root path_PointLayer) added
               /\ objects s' = objects s ++ camob :: added
               /\ name camob = "ARCamera"
               /\ display_size camob = Q2Qc (2 # 10)
               /\ ob_type camob = "CAMERA"
               /\ keyframes s'
                  = keyframes s
                    ++ flat_map (frame_keys (List.length (objects s)) w ps rs zs)
                                (seq 0 (List.length tk))
               /\ resolution_x s' = clamp 4 65536 w
               /\ resolution_y s' = clamp 4 65536 h
               /\ fps s' = clamp 1 32767 f
               /\ frame_end s' = Z.of_nat (List.length tk)
               /\ frame_current s' = 0%Z
       end.
Proof.
  unfold import_hitfilm_composite. intros E.
  apply bind_ok_inv in E. destruct E as ([[w h] f] & s0 & E0 & E).
  apply lift_ok_inv in E0. destruct E0 as [Hs ->].
  exists w, h, f. split; [exact Hs|].
  do 3 (erewrite bind_ok in E by reflexivity).
  destruct (find root path_CameraLayer) as [cameraNode|].
  - apply bind_ok_inv in E. destruct E as ([[[tk ps] rs] zs] & s1 & E1 & E).
    apply lift_ok_inv in E1. destruct E1 as [Hc ->].
    do 3 (erewrite bind_ok in E by reflexivity).
    cbn [active_object set_active_object] in E.
    erewrite bind_ok in E by (apply (setattr_snoc (objects s)); reflexivity).
    erewrite bind_ok in E by (apply (setattr_snoc (objects s)); reflexivity).
    apply bind_ok_inv in E. destruct E as ([] & s2 & E2 & E).
    apply camera_frames_ok_inv
      with (o := set_name "ARCamera"
                   (set_display_size (Q2Qc (2 # 10)) new_camera)) in E2;
      [|reflexivity|reflexivity].
    destruct E2 as (Hall & (o' & Ho' & Hn & Hd & Ht) & Ha' & Hk & Hx & Hy & Hf & He).
    erewrite bind_ok in E by reflexivity.
    apply bind_ok_inv in E. destruct E as ([] & s3 & E3 & E).
    injection E as <- <-.
    destruct (anchors_ok_inv _ _ _ E3) as (added & Hm & Hobj).
    pose (proj := fun s : Scene =>
                    (resolution_x s, resolution_y s, fps s,
                     frame_end s, frame_current s, keyframes s)).
    assert (Hkeep : proj s3 = proj (set_frame_current 0 s2)).
    { eapply (keeps_for_each proj); [|exact E3].
      intros x. apply anchor_point_keeps; reflexivity. }
    unfold proj in Hkeep. cbn in Hkeep. injection Hkeep as Kx Ky Kf Ke Kc Kk.
    split; [reflexivity|].
    exists tk, ps, rs, zs, o', added.
    repeat split.
    + exact Hc.
    + intros i Hi. apply Hall. lia.
    + exact Hm.
    + rewrite Hobj. cbn [objects set_frame_current set_objects]. rewrite Ho'.
      now rewrite <- app_assoc.
    + exact Hn.
    + exact Hd.
    + exact Ht.
    + rewrite Kk, Hk. reflexivity.
    + rewrite Kx, Hx. reflexivity.
    + rewrite Ky, Hy. reflexivity.
    + rewrite Kf, Hf. reflexivity.
    + rewrite Ke, He. reflexivity.
    + exact Kc.
  - injection E as <- <-. now split.
Qed.

End Returning.

(** ** Reading the channels *)

Section Channels.

Context {host : Host}.

Lemma read_position_keys_ok_inv (keys : list Element) :
  forall tk ps tk' ps',
    read_position_keys keys tk ps = Ok (tk', ps') ->
    tk' = tk ++ map (fun key => get key "Time") keys
    /\ List.length ps' = (List.length ps + List.length keys)%nat.
Proof.
  induction keys as [|key keys IH]; intros tk ps tk' ps' E; cbn in E.
  - injection E as <- <-. cbn. now rewrite app_nil_r, Nat.add_0_r.
  - destruct (read_position_key key) as [p|e]; cbn [rbind] in E; [|discriminate].
    apply IH in E. destruct E as [-> ->]. split.
    + now rewrite <- app_assoc.
    + rewrite length_app. cbn. lia.
Qed.

Lemma read_position_keys_ok (keys : list Element) :
  forall tk ps,
    forallb (fun k => is_ok (read_position_key k)) keys = true ->
    exists tk' ps', read_position_keys keys tk ps = Ok (tk', ps').
Proof.
  induction keys as [|key keys IH]; intros tk ps H; cbn in *.
  - now exists tk, ps.
  - apply andb_true_iff in H. destruct H as [H1 H2].
    destruct (read_position_key key) as [p|e]; [|discriminate].
    cbn [rbind]. now apply IH.
Qed.

Lemma read_keys_ok_inv {A : Type} (read : Element -> result A)
    (keys : list Element) :
  forall vals vals',
    read_keys read keys vals = Ok vals' ->
    List.length vals' = (List.length vals + List.length keys)%nat.
Proof.
  induction keys as [|key keys IH]; intros vals vals' E; cbn in E.
  - injection E as <-. cbn. lia.
  - destruct (read key) as [v|e]; cbn [rbind] in E; [|discriminate].
    apply IH in E. rewrite E, length_app. cbn. lia.
Qed.

Lemma read_keys_ok {A : Type} (read : Element -> result A)
    (keys : list Element) :
  forall vals,
    forallb (fun k => is_ok (read k)) keys = true ->
    exists vals', read_keys read keys vals = Ok vals'.
Proof.
  induction keys as [|key keys IH]; intros vals H; cbn in *.
  - now exists vals.
  - apply andb_true_iff in H. destruct H as [H1 H2].
    destruct (read key) as [v|e]; [|discriminate].
    cbn [rbind]. now apply IH.
Qed.

Lemma read_position_channel_keys (cameraNode : Element) :
  read_position_channel cameraNode
  = match channel_keys cameraNode path_position_Animation with
    | None => Ok ([], [])
    | Some keys => read_position_keys keys [] []
    end.
Proof.
  unfold read_position_channel, channel_keys.
  now destruct (findall cameraNode path_position_Animation).
Qed.

Lemma read_checked_channel_keys {A : Type} (cameraNode : Element)
    (path : list step) (read : Element -> result A)
    (tk : list (option string)) :
  read_checked_channel cameraNode path read tk
  = match channel_keys cameraNode path with
    | None => Ok []
    | Some keys =>
        if Nat.eqb (List.length tk) (List.length keys)
        then read_keys read keys [] else Raise AssertionError
    end.
Proof.
  unfold read_checked_channel, channel_keys.
  now destruct (findall cameraNode path).
Qed.

(** The position channel of a well-formed camera always reads, and gives as
    many time keys and positions as it has keys. *)
Lemma read_position_channel_ok (cameraNode : Element) :
  keys_ok read_position_key
          (channel_keys cameraNode path_position_Animation) = true ->
  exists tk ps,
    read_position_channel cameraNode = Ok (tk, ps)
    /\ List.length tk = channel_length cameraNode path_position_Animation
    /\ List.length ps = channel_length cameraNode path_position_Animation.
Proof.
  rewrite read_position_channel_keys. unfold channel_length, keys_ok.
  destruct (channel_keys cameraNode path_position_Animation) as [keys|].
  - intros H.
    destruct (read_position_keys_ok keys [] [] H) as (tk & ps & E).
    exists tk, ps. split; [exact E|].
    apply read_position_keys_ok_inv in E. destruct E as [-> ->].
    cbn. now rewrite length_map.
  - intros _. now exists [], [].
Qed.

(** A rotation or zoom channel of a well-formed camera: absent, it reads as
    the empty list; present, it reads when it has as many keys as there are
    time keys, and fails the assertion otherwise. *)
Lemma read_checked_channel_cases {A : Type} (cameraNode : Element)
    (path : list step) (read : Element -> result A)
    (tk : list (option string)) :
  keys_ok read (channel_keys cameraNode path) = true ->
  List.length tk = channel_length cameraNode path_position_Animation ->
  if matches_position cameraNode path
  then exists vals,
      read_checked_channel cameraNode path read tk = Ok vals
      /\ List.length vals = channel_length cameraNode path
  else read_checked_channel cameraNode path read tk = Raise AssertionError.
Proof.
  intros H Htk. rewrite read_checked_channel_keys.
  unfold matches_position, absent. rewrite <- Htk.
  assert (Hlen : channel_length cameraNode path
                 = match channel_keys cameraNode path with
                   | None => 0%nat
                   | Some keys => List.length keys
                   end) by reflexivity.
  rewrite Hlen. unfold keys_ok in H.
  destruct (channel_keys cameraNode path) as [keys|]; cbn [orb].
  - rewrite (Nat.eqb_sym (List.length keys)).
    destruct (Nat.eqb (List.length tk) (List.length keys)); [|reflexivity].
    destruct (read_keys_ok read keys [] H) as (vals & E).
    exists vals. split; [exact E|].
    now apply read_keys_ok_inv in E.
  - now exists [].
Qed.

Lemma well_formed_camera_keys (cameraNode : Element) :
  well_formed_camera cameraNode = true ->
  keys_ok read_position_key
          (channel_keys cameraNode path_position_Animation) = true
  /\ keys_ok read_rotation_key
             (channel_keys cameraNode path_orientation_Animation) = true
  /\ keys_ok read_zoom_key
             (channel_keys cameraNode path_zoom_Animation) = true.
Proof.
  unfold well_formed_camera. intros H.
  apply andb_true_iff in H. destruct H as [H Hz].
  apply andb_true_iff in H. destruct H as [Hp Hr]. now repeat split.
Qed.

Lemma read_channels_cases (cameraNode : Element) :
  well_formed_camera cameraNode = true ->
  if lengths_agree cameraNode
  then exists tk ps rs zs,
      read_channels cameraNode = Ok (tk, ps, rs, zs)
      /\ List.length tk = channel_length cameraNode path_position_Animation
      /\ List.length ps = channel_length cameraNode path_position_Animation
      /\ List.length rs = channel_length cameraNode path_orientation_Animation
      /\ List.length zs = channel_length cameraNode path_zoom_Animation
  else read_channels cameraNode = Raise AssertionError.
Proof.
  intros Hwf. apply well_formed_camera_keys in Hwf.
  destruct Hwf as (Hp & Hr & Hz).
  destruct (read_position_channel_ok cameraNode Hp) as (tk & ps & E & Htk & Hps).
  unfold read_channels, lengths_agree. rewrite E. cbn [rbind fst snd].
  pose proof (read_checked_channel_cases cameraNode path_orientation_Animation
                read_rotation_key tk Hr Htk) as Cr.
  pose proof (read_checked_channel_cases cameraNode path_zoom_Animation
                read_zoom_key tk Hz Htk) as Cz.
  destruct (matches_position cameraNode path_orientation_Animation);
    cbn [andb].
  - destruct Cr as (rs & -> & Hrs). cbn [rbind].
    destruct (matches_position cameraNode path_zoom_Animation).
    + destruct Cz as (zs & -> & Hzs). cbn [rbind].
      now exists tk, ps, rs, zs.
    + now rewrite Cz.
  - now rewrite Cr.
Qed.

Lemma read_channels_ok_inv (cameraNode : Element) tk ps rs zs :
  read_channels cameraNode = Ok (tk, ps, rs, zs) ->
  List.length ps = List.length tk
  /\ (rs = [] \/ List.length rs = List.length tk)
  /\ (zs = [] \/ List.length zs = List.length tk).
Proof.
  unfold read_channels. rewrite read_position_channel_keys.
  assert (Hpos : forall tk0 ps0,
             match channel_keys cameraNode path_position_Animation with
             | Some keys => read_position_keys keys [] []
             | None => Ok ([], [])
             end = Ok (tk0, ps0) -> List.length ps0 = List.length tk0).
  { intros tk0 ps0.
    destruct (channel_keys cameraNode path_position_Animation) as [keys|].
    - intros E. apply read_position_keys_ok_inv in E. destruct E as [-> ->].
      cbn. now rewrite length_map.
    - intros E. now injection E as <- <-. }
  destruct (match channel_keys cameraNode path_position_Animation with
            | Some keys => read_position_keys keys [] []
            | None => Ok ([], [])
            end) as [[tk0 ps0]|e]; cbn [rbind fst snd]; [|discriminate].
  specialize (Hpos tk0 ps0 eq_refl).
  assert (Hchk : forall (A : Type) (read : Element -> result A) path vals,
             match channel_keys cameraNode path with
             | Some keys =>
                 if Nat.eqb (List.length tk0) (List.length keys)
                 then read_keys read keys [] else Raise AssertionError
             | None => Ok []
             end = Ok vals ->
             vals = [] \/ List.length vals = List.length tk0).
  { intros A read path vals.
    destruct (channel_keys cameraNode path) as [keys|].
    - destruct (Nat.eqb (List.length tk0) (List.length keys)) eqn:El;
        [|discriminate].
      intros E. apply read_keys_ok_inv in E. apply Nat.eqb_eq in El.
      right. cbn in E. lia.
    - intros E. injection E as <-. now left. }
  rewrite read_checked_channel_keys.
  destruct (match channel_keys cameraNode path_orientation_Animation with
            | Some keys => _ | None => _ end) as [rs0|e] eqn:Er;
    cbn [rbind]; [|discriminate].
  rewrite read_checked_channel_keys.
  destruct (match channel_keys cameraNode path_zoom_Animation with
            | Some keys => _ | None => _ end) as [zs0|e] eqn:Ez;
    cbn [rbind]; [|discriminate].
  intros E. injection E as <- <- <- <-.
  repeat split; [exact Hpos | eapply Hchk; exact Er | eapply Hchk; exact Ez].
Qed.

End Channels.

(** ** The import with a camera layer *)

Section WithCamera.

Context {host : Host}.

Lemma camera_frame_keeps {X : Type} (proj : Scene -> X) (w : Z)
    (cameraObject : option nat) (ps rs : list Vec3) (zs : list Qc) (i : nat) :
  (forall v s, proj (set_objects v s) = proj s) ->
  (forall v s, proj (set_keyframes v s) = proj s) ->
  (forall v s, proj (set_frame_current v s) = proj s) ->
  keeps proj (camera_frame w cameraObject ps rs zs i).
Proof.
  intros Ho Hk Hc.
  unfold camera_frame, frame_set, keyframe_insert_lens,
    keyframe_insert_menu_LocRot. cbv zeta.
  repeat first
    [ apply keeps_bind; [|intros ?]
    | apply keeps_lift | apply keeps_gets | apply keeps_getattr
    | apply keeps_raise
    | apply keeps_setattr; exact Ho
    | apply keeps_add_key; exact Hk
    | apply keeps_modify; intros ?; apply Hc
    | match goal with
      | |- keeps _ (match ?x with _ => _ end) => destruct x
      end ].
Qed.

Lemma absent_length (cameraNode : Element) (path : list step) :
  absent cameraNode path = true -> channel_length cameraNode path = 0%nat.
Proof.
  unfold absent, channel_length.
  now destruct (channel_keys cameraNode path).
Qed.

Lemma lengths_agree_nonempty (cameraNode : Element) :
  lengths_agree cameraNode = true -> nonempty_channels_agree cameraNode = true.
Proof.
  unfold lengths_agree, matches_position, nonempty_channels_agree,
    nonempty_agree.
  intros H. apply andb_true_iff in H. destruct H as [Hr Hz].
  assert (Lr : channel_length cameraNode path_orientation_Animation = 0%nat
               \/ channel_length cameraNode path_orientation_Animation
                  = channel_length cameraNode path_position_Animation).
  { apply orb_true_iff in Hr. destruct Hr as [Hr|Hr];
      [left; now apply absent_length | right; now apply Nat.eqb_eq]. }
  assert (Lz : channel_length cameraNode path_zoom_Animation = 0%nat
               \/ channel_length cameraNode path_zoom_Animation
                  = channel_length cameraNode path_position_Animation).
  { apply orb_true_iff in Hz. destruct Hz as [Hz|Hz];
      [left; now apply absent_length | right; now apply Nat.eqb_eq]. }
  destruct Lr as [-> | ->], Lz as [-> | ->];
    rewrite ?Nat.eqb_refl, ?orb_true_r; reflexivity.
Qed.

Variables (root : Element) (s : Scene) (w h f : Z) (cameraNode : Element).
Hypothesis Hsettings : read_settings root = Ok (w, h, f).
Hypothesis Hcamera : find root path_CameraLayer = Some cameraNode.

Lemma import_channels_raise (e : exn) :
  read_channels cameraNode = Raise e ->
  import_hitfilm_composite root s
  = (set_fps f (set_resolution_y h (set_resolution_x w s)), Raise e).
Proof.
  intros Hch. unfold import_hitfilm_composite.
  rewrite (bind_ok _ _ s s (w, h, f)) by (unfold lift; now rewrite Hsettings).
  do 3 (erewrite bind_ok by reflexivity). rewrite Hcamera.
  erewrite bind_raise by (unfold lift; now rewrite Hch). reflexivity.
Qed.

(** Once the channels are read the end frame is the number of time keys,
    whatever happens next. *)
Lemma import_frame_end tk ps rs zs :
  read_channels cameraNode = Ok (tk, ps, rs, zs) ->
  exists s' r,
    import_hitfilm_composite root s = (s', r)
    /\ frame_end s' = Z.of_nat (List.length tk).
Proof.
  intros Hch. unfold import_hitfilm_composite.
  rewrite (bind_ok _ _ s s (w, h, f)) by (unfold lift; now rewrite Hsettings).
  do 3 (erewrite bind_ok by reflexivity). rewrite Hcamera.
  erewrite bind_ok by (unfold lift; now rewrite Hch).
  cbv beta iota. erewrite bind_ok by reflexivity.
  match goal with
  | |- exists s' r, ?m ?st = (s', r) /\ _ =>
      assert (K : keeps frame_end m); [|destruct (m st) as [s' r] eqn:E]
  end.
  - repeat first
      [ apply camera_frame_keeps; reflexivity
      | apply anchor_point_keeps; reflexivity
      | apply keeps_for_each; intros ?
      | apply keeps_bind; [|intros ?]
      | apply keeps_ret | apply keeps_gets
      | apply keeps_setattr; reflexivity
      | apply keeps_add_object; reflexivity
      | apply keeps_modify; reflexivity ].
  - exists s', r. split; [reflexivity|]. now rewrite (K _ _ _ E).
Qed.

(** When the three channels are as long as the time keys and the width is
    not zero, every frame is keyed, whatever the anchors do next. *)
Lemma import_keys_all_frames tk ps rs zs :
  read_channels cameraNode = Ok (tk, ps, rs, zs) ->
  List.length ps = List.length tk ->
  List.length rs = List.length tk ->
  List.length zs = List.length tk ->
  Z2Qc w <> 0 ->
  exists s' r,
    import_hitfilm_composite root s = (s', r)
    /\ keyframes s'
       = keyframes s
         ++ flat_map (frame_keys (List.length (objects s)) w ps rs zs)
                     (seq 0 (List.length tk)).
Proof.
  intros Hch Hps Hrs Hzs Hw. unfold import_hitfilm_composite.
  rewrite (bind_ok _ _ s s (w, h, f)) by (unfold lift; now rewrite Hsettings).
  do 3 (erewrite bind_ok by reflexivity). rewrite Hcamera.
  erewrite bind_ok by (unfold lift; now rewrite Hch).
  cbv beta iota. do 3 (erewrite bind_ok by reflexivity).
  cbn [active_object set_active_object].
  erewrite bind_ok by (apply (setattr_snoc (objects s)); reflexivity).
  erewrite bind_ok by (apply (setattr_snoc (objects s)); reflexivity).
  match goal with
  | |- context [for_each (seq 0 _) _] =>
      match goal with
      | |- exists s' r, bind (for_each ?l ?b) ?k ?st = _ /\ _ =>
          destruct (camera_frames_ok w (objects s) ps rs zs (List.length tk)
                      0 st (set_name "ARCamera"
                              (set_display_size (Q2Qc (2 # 10)) new_camera))
                      eq_refl eq_refl Hw) as [s2 E2]; try (cbn; lia)
      end
  end.
  rewrite (bind_ok _ _ _ _ _ E2).
  apply camera_frames_ok_inv
    with (o := set_name "ARCamera"
                 (set_display_size (Q2Qc (2 # 10)) new_camera)) in E2;
    [|reflexivity|reflexivity].
  destruct E2 as (_ & _ & _ & Hk & _).
  match goal with
  | |- exists s' r, ?m ?st = (s', r) /\ _ =>
      assert (K : keeps keyframes m); [|destruct (m st) as [s' r] eqn:E]
  end.
  - repeat first
      [ apply anchor_point_keeps; reflexivity
      | apply keeps_for_each; intros ?
      | apply keeps_bind; [|intros ?]
      | apply keeps_ret
      | apply keeps_modify; reflexivity ].
  - exists s', r. split; [reflexivity|]. rewrite (K _ _ _ E). exact Hk.
Qed.

End WithCamera.

(** ** Matrices *)

Lemma translation_after_rotation (m : Mat3) (t : Vec3) :
  Translation t @@ to_4x4 m = affine m t.
Proof.
  destruct m as [[a b c] [d e f] [g h i]], t as [x y z].
  unfold matmul, row_mul, dot4, Translation, to_4x4, affine,
    col0, col1, col2, col3. cbn.
  f_equal; f_equal; ring.
Qed.

Lemma basis_before_affine (b m : Mat3) (t : Vec3) :
  to_4x4 b @@ affine m t = affine (mat3_mul b m) (mat3_vec b t).
Proof.
  destruct b as [[b0 b1 b2] [b3 b4 b5] [b6 b7 b8]],
    m as [[a b c] [d e f] [g h i]], t as [x y z].
  unfold matmul, row_mul, dot4, to_4x4, affine, mat3_mul, mat3_row_mul,
    mat3_col, mat3_vec, dot3, col0, col1, col2, col3. cbn.
  f_equal; f_equal; ring.
Qed.

Lemma basis_before_translation (b : Mat3) (t : Vec3) :
  to_4x4 b @@ Translation t = affine b (mat3_vec b t).
Proof.
  destruct b as [[b0 b1 b2] [b3 b4 b5] [b6 b7 b8]], t as [x y z].
  unfold matmul, row_mul, dot4, to_4x4, affine, Translation, mat3_vec, dot3,
    col0, col1, col2, col3. cbn.
  f_equal; f_equal; ring.
Qed.

Lemma to_translation_affine (m : Mat3) (t : Vec3) :
  to_translation (affine m t) = t.
Proof. now destruct t. Qed.

Lemma blenderScale_1000 : blenderScale * Z2Qc 1000 = PixelsPerMM.
Proof. apply Qc_is_canon. reflexivity. Qed.

(** ** Blanking the Time attributes *)

Lemma tag_blank_time (e : Element) : tag (blank_time e) = tag e.
Proof. now destruct e. Qed.

Lemma text_blank_time (e : Element) : text (blank_time e) = text e.
Proof. now destruct e. Qed.

Lemma children_blank_time (e : Element) :
  children (blank_time e) = map blank_time (children e).
Proof. now destruct e. Qed.

Lemma lookup_blank_time (key : string) (a : list (string * string)) :
  key <> "Time" -> lookup key (blank_time_attrib a) = lookup key a.
Proof.
  intros Hk. induction a as [|[k v] a IH]; [reflexivity|].
  unfold blank_time_attrib in *. cbn [map fst].
  destruct (String.eqb k "Time") eqn:Et; cbn [lookup]; rewrite IH.
  - apply String.eqb_eq in Et. subst k.
    destruct (String.eqb "Time" key) eqn:E; [|reflexivity].
    apply String.eqb_eq in E. now subst key.
  - reflexivity.
Qed.

Lemma get_blank_time (e : Element) (key : string) :
  key <> "Time" -> get (blank_time e) key = get e key.
Proof. destruct e. apply lookup_blank_time. Qed.

Lemma descendants_blank_time (e : Element) :
  descendants (blank_time e) = map blank_time (descendants e).
Proof.
  induction e as [t a x cs IH] using Element_forall_ind.
  rewrite !descendants_unfold. cbn [blank_time children].
  induction cs as [|c cs IHcs]; [reflexivity|].
  inversion IH as [|? ? Hc Hcs]; subst.
  cbn. rewrite Hc, map_app. now rewrite (IHcs Hcs).
Qed.

Lemma filter_tag_blank_time (t : string) (l : list Element) :
  filter (fun e => String.eqb (tag e) t) (map blank_time l)
  = map blank_time (filter (fun e => String.eqb (tag e) t) l).
Proof.
  induction l as [|e l IH]; [reflexivity|].
  cbn. rewrite tag_blank_time.
  destruct (String.eqb (tag e) t); cbn; now rewrite IH.
Qed.

Lemma select_blank_time (st : step) (l : list Element) :
  select st (map blank_time l) = map blank_time (select st l).
Proof.
  destruct st as [| |t]; cbn [select].
  - reflexivity.
  - induction l as [|e l IH]; [reflexivity|].
    cbn. now rewrite descendants_blank_time, map_app, IH.
  - induction l as [|e l IH]; [reflexivity|].
    cbn. rewrite children_blank_time, filter_tag_blank_time, map_app.
    now rewrite IH.
Qed.

Lemma iterfind_blank_time (e : Element) (path : list step) :
  iterfind (blank_time e) path = map blank_time (iterfind e path).
Proof.
  unfold iterfind. change [blank_time e] with (map blank_time [e]).
  generalize [e] as l. induction path as [|st path IH]; intros l.
  - reflexivity.
  - cbn [fold_left]. now rewrite select_blank_time, IH.
Qed.

Lemma find_blank_time (e : Element) (path : list step) :
  find (blank_time e) path = option_map blank_time (find e path).
Proof.
  unfold find. rewrite iterfind_blank_time.
  now destruct (iterfind e path).
Qed.

Lemma findall_blank_time (e : Element) (path : list step) :
  findall (blank_time e) path = map blank_time (findall e path).
Proof. apply iterfind_blank_time. Qed.

Section BlankTime.

Context {host : Host}.

Lemma get_attr_blank_time (node : option Element) (key : string) :
  key <> "Time" ->
  get_attr (option_map blank_time node) key = get_attr node key.
Proof.
  intros Hk. destruct node as [n|]; [|reflexivity].
  cbn. now rewrite get_blank_time.
Qed.

Lemma read_xyz_blank_time (node : option Element) :
  read_xyz (option_map blank_time node) = read_xyz node.
Proof.
  unfold read_xyz. now rewrite !get_attr_blank_time by discriminate.
Qed.

Lemma find_text_blank_time (node : option Element) (path : list step) :
  find_text (option_map blank_time node) path = find_text node path.
Proof.
  destruct node as [n|]; [|reflexivity].
  cbn. rewrite find_blank_time.
  destruct (find n path) as [c|]; [|reflexivity].
  cbn. now rewrite text_blank_time.
Qed.

Lemma read_position_key_blank_time (key : Element) :
  read_position_key (blank_time key) = read_position_key key.
Proof.
  unfold read_position_key. rewrite find_blank_time.
  apply read_xyz_blank_time.
Qed.

Lemma read_rotation_key_blank_time (key : Element) :
  read_rotation_key (blank_time key) = read_rotation_key key.
Proof.
  unfold read_rotation_key. rewrite find_blank_time.
  apply read_xyz_blank_time.
Qed.

Lemma read_zoom_key_blank_time (key : Element) :
  read_zoom_key (blank_time key) = read_zoom_key key.
Proof.
  unfold read_zoom_key.
  now rewrite (find_text_blank_time (Some key)).
Qed.

Lemma read_settings_blank_time (root : Element) :
  read_settings (blank_time root) = read_settings root.
Proof.
  unfold read_settings, read_setting. rewrite find_blank_time.
  now rewrite !find_text_blank_time.
Qed.

Lemma read_anchor_blank_time (node : Element) :
  read_anchor (blank_time node) = read_anchor node.
Proof.
  unfold read_anchor. rewrite !find_blank_time, read_xyz_blank_time.
  destruct (find node path_Name) as [n|]; [|reflexivity].
  cbn. now rewrite text_blank_time.
Qed.

(** The time keys of the blanked document have other values, and are as
    many. *)
Lemma read_position_keys_blank_time (keys : list Element) :
  forall tk tk0 ps,
    List.length tk0 = List.length tk ->
    match read_position_keys keys tk ps with
    | Ok (tk', ps') =>
        exists tk0', read_position_keys (map blank_time keys) tk0 ps
                     = Ok (tk0', ps')
                     /\ List.length tk0' = List.length tk'
    | Raise e => read_position_keys (map blank_time keys) tk0 ps = Raise e
    end.
Proof.
  induction keys as [|key keys IH]; intros tk tk0 ps Hl; cbn.
  - now exists tk0.
  - rewrite read_position_key_blank_time.
    destruct (read_position_key key) as [p|e]; cbn [rbind]; [|reflexivity].
    apply IH. rewrite !length_app. cbn. lia.
Qed.

Lemma read_keys_blank_time {A : Type} (read : Element -> result A)
    (keys : list Element) :
  (forall k, read (blank_time k) = read k) ->
  forall vals, read_keys read (map blank_time keys) vals
               = read_keys read keys vals.
Proof.
  intros Hr. induction keys as [|key keys IH]; intros vals; cbn.
  - reflexivity.
  - rewrite Hr. destruct (read key); cbn [rbind]; [apply IH | reflexivity].
Qed.

Lemma read_checked_channel_blank_time {A : Type} (cameraNode : Element)
    (path : list step) (read : Element -> result A)
    (tk tk0 : list (option string)) :
  (forall k, read (blank_time k) = read k) ->
  List.length tk0 = List.length tk ->
  read_checked_channel (blank_time cameraNode) path read tk0
  = read_checked_channel cameraNode path read tk.
Proof.
  intros Hr Hl. unfold read_checked_channel. rewrite findall_blank_time.
  destruct (findall cameraNode path) as [|anim l]; [reflexivity|].
  cbn [map]. rewrite children_blank_time, length_map, Hl.
  destruct (Nat.eqb (List.length tk) (List.length (children anim)));
    [now apply read_keys_blank_time | reflexivity].
Qed.

Lemma read_channels_blank_time (cameraNode : Element) :
  match read_channels cameraNode with
  | Ok (tk, ps, rs, zs) =>
      exists tk0, read_channels (blank_time cameraNode) = Ok (tk0, ps, rs, zs)
                  /\ List.length tk0 = List.length tk
  | Raise e => read_channels (blank_time cameraNode) = Raise e
  end.
Proof.
  unfold read_channels, read_position_channel.
  rewrite findall_blank_time.
  assert (Hpos :
    match (match findall cameraNode path_position_Animation with
           | [] => Ok ([], [])
           | anim :: _ => read_position_keys (children anim) [] []
           end) with
    | Ok (tk', ps') =>
        exists tk0',
          match map blank_time (findall cameraNode path_position_Animation) with
          | [] => Ok ([], [])
          | anim :: _ => read_position_keys (children anim) [] []
          end = Ok (tk0', ps')
          /\ List.length tk0' = List.length tk'
    | Raise e =>
        match map blank_time (findall cameraNode path_position_Animation) with
        | [] => Ok ([], [])
        | anim :: _ => read_position_keys (children anim) [] []
        end = Raise e
    end).
  { destruct (findall cameraNode path_position_Animation) as [|anim l].
    - now exists [].
    - cbn [map]. rewrite children_blank_time.
      now apply read_position_keys_blank_time. }
  destruct (match findall cameraNode path_position_Animation with
            | [] => Ok ([], [])
            | anim :: _ => read_position_keys (children anim) [] []
            end) as [[tk ps]|e]; cbn [rbind fst snd].
  - destruct Hpos as (tk0 & -> & Hl). cbn [rbind fst snd].
    rewrite (read_checked_channel_blank_time _ _ _ tk tk0
               read_rotation_key_blank_time Hl).
    destruct (read_checked_channel cameraNode path_orientation_Animation
                read_rotation_key tk) as [rs|e]; cbn [rbind]; [|reflexivity].
    rewrite (read_checked_channel_blank_time _ _ _ tk tk0
               read_zoom_key_blank_time Hl).
    destruct (read_checked_channel cameraNode path_zoom_Animation
                read_zoom_key tk) as [zs|e]; cbn [rbind]; [|reflexivity].
    now exists tk0.
  - now rewrite Hpos.
Qed.

Lemma anchor_point_blank_time (node : Element) (s : Scene) :
  anchor_point (blank_time node) s = anchor_point node s.
Proof.
  unfold anchor_point. rewrite !find_blank_time.
  pose proof (read_xyz_blank_time (find node path_position_Default_p3)) as Hx.
  destruct (find node path_position_Default_p3) as [pn|];
    destruct (find node path_Name) as [[t a x cs]|];
    cbn [option_map] in *; cbv zeta; try rewrite Hx; reflexivity.
Qed.

Lemma anchors_blank_time (nodes : list Element) :
  forall s, for_each (map blank_time nodes) anchor_point s
            = for_each nodes anchor_point s.
Proof.
  induction nodes as [|node nodes IH]; intros s; [reflexivity|].
  cbn [map for_each]. unfold bind.
  rewrite anchor_point_blank_time.
  destruct (anchor_point node s) as [s1 [[]|e]]; [apply IH | reflexivity].
Qed.

Lemma bind_ext {A B : Type} (m : M A) (k1 k2 : A -> M B) (s : Scene) :
  (forall a s1, k1 a s1 = k2 a s1) -> bind m k1 s = bind m k2 s.
Proof.
  intros Hk. unfold bind. destruct (m s) as [s1 [a|e]]; [apply Hk | reflexivity].
Qed.

Lemma import_blank_time (root : Element) (s : Scene) :
  import_hitfilm_composite (blank_time root) s
  = import_hitfilm_composite root s.
Proof.
  unfold import_hitfilm_composite.
  rewrite read_settings_blank_time, find_blank_time, findall_blank_time.
  apply bind_ext. intros [[w h] f] s0.
  do 3 (apply bind_ext; intros [] ?).
  destruct (find root path_CameraLayer) as [cameraNode|]; [|reflexivity].
  cbn [option_map].
  pose proof (read_channels_blank_time cameraNode) as Hch.
  unfold bind at 1. unfold bind at 9. unfold lift.
  destruct (read_channels cameraNode) as [[[[tk ps] rs] zs]|e].
  - destruct Hch as (tk0 & -> & Hl). rewrite Hl.
    do 7 (apply bind_ext; intros ? ?).
    unfold bind. rewrite anchors_blank_time. reflexivity.
  - now rewrite Hch.
Qed.

End BlankTime.

(** ** The sample documents *)

Lemma pair_of_snd {A B : Type} (p : A * B) (b : B) :
  snd p = b -> p = (fst p, b).
Proof. destruct p. cbn. now intros ->. Qed.

Lemma sample_full_finished :
  import_hitfilm_composite (host := Sample.host)
    Sample.doc_full Sample.empty_scene
  = (fst (import_hitfilm_composite (host := Sample.host)
            Sample.doc_full Sample.empty_scene), Ok FINISHED).
Proof. apply pair_of_snd. vm_compute. reflexivity. Qed.

Lemma sample_full_finished_target :
  import_hitfilm_composite (host := Sample.host)
    Sample.doc_full Sample.scene_with_target
  = (fst (import_hitfilm_composite (host := Sample.host)
            Sample.doc_full Sample.scene_with_target), Ok FINISHED).
Proof. apply pair_of_snd. vm_compute. reflexivity. Qed.

Lemma nth_error_all_length {A : Type} (l : list A) (n : nat) :
  (forall i, (i < n)%nat -> exists x, nth_error l i = Some x) ->
  (n <= List.length l)%nat.
Proof.
  intros H. destruct (Nat.le_gt_cases n (List.length l)) as [Hle|Hgt];
    [exact Hle|].
  destruct (H (List.length l) Hgt) as [x Hx].
  assert (Hn : nth_error l (List.length l) = None)
    by (apply nth_error_None; lia).
  congruence.
Qed.

(** ** Explicit forms used in the statements *)

Lemma filter_flat_map {A B : Type} (P : B -> bool) (f : A -> list B)
    (l : list A) :
  filter P (flat_map f l) = flat_map (fun x => filter P (f x)) l.
Proof.
  induction l as [|x l IH]; [reflexivity|].
  cbn. now rewrite filter_app, IH.
Qed.

Lemma flat_map_flat_map {A B C : Type} (f : A -> list B) (g : B -> list C)
    (l : list A) :
  flat_map g (flat_map f l) = flat_map (fun x => flat_map g (f x)) l.
Proof.
  induction l as [|x l IH]; [reflexivity|].
  cbn. now rewrite flat_map_app, IH.
Qed.

Lemma length_flat_map {A B : Type} (f : A -> list B) (l : list A) :
  List.length (flat_map f l)
  = fold_right (fun x n => (List.length (f x) + n)%nat) 0%nat l.
Proof.
  induction l as [|x l IH]; [reflexivity|].
  cbn. now rewrite length_app, IH.
Qed.

Lemma fold_right_add_ext {A : Type} (f g : A -> nat) (l : list A) :
  Forall (fun x => f x = g x) l ->
  fold_right (fun x n => (f x + n)%nat) 0%nat l
  = fold_right (fun x n => (g x + n)%nat) 0%nat l.
Proof.
  induction 1 as [|x l Hx _ IH]; [reflexivity|].
  cbn. now rewrite Hx, IH.
Qed.

Lemma fold_right_add_add {A : Type} (f g : A -> nat) (l : list A) :
  fold_right (fun x n => (f x + g x + n)%nat) 0%nat l
  = (fold_right (fun x n => (f x + n)%nat) 0%nat l
     + fold_right (fun x n => (g x + n)%nat) 0%nat l)%nat.
Proof.
  induction l as [|x l IH]; [reflexivity|].
  cbn. rewrite IH. lia.
Qed.

(** The children tagged [t] of the sub-elements of [e] are as many as the
    elements tagged [t] below the children of [e]. *)
Lemma length_children_of_descendants (t : string) (e : Element) :
  List.length
    (flat_map (fun d => filter (fun c => String.eqb (tag c) t) (children d))
              (descendants e))
  = List.length (filter (fun c => String.eqb (tag c) t)
                        (flat_map descendants (children e))).
Proof.
  set (P := fun c : Element => String.eqb (tag c) t).
  assert (D : forall c,
             List.length (filter P (descendants c))
             = (List.length (filter P (children c))
                + List.length (filter P (flat_map descendants (children c))))%nat).
  { intros c. rewrite descendants_unfold.
    rewrite !filter_flat_map, !length_flat_map.
    induction (children c) as [|k ks IH]; [reflexivity|].
    cbn [fold_right]. rewrite IH. cbn [filter].
    destruct (P k); cbn [List.length]; lia. }
  induction e as [tg a x cs IH] using Element_forall_ind.
  rewrite descendants_unfold. cbn [children].
  rewrite flat_map_flat_map, filter_flat_map, !length_flat_map.
  rewrite (fold_right_add_ext
             (fun c => List.length
                         (flat_map (fun d => filter P (children d))
                                   (c :: descendants c)))
             (fun c => List.length (filter P (descendants c)))); [reflexivity|].
  rewrite Forall_forall in IH |- *. intros c Hc.
  cbn [flat_map]. rewrite length_app, (IH c Hc). now rewrite D.
Qed.

Lemma length_findall_below_children (root : Element) (t : string) :
  List.length (findall root [Self; Descendant_any; Child t])
  = count_below_children t root.
Proof.
  unfold findall, count_below_children. rewrite iterfind_descendant_child.
  apply length_children_of_descendants.
Qed.

Section Explicit.

Context {host : Host}.

(** The world transform of a camera sample, entry by entry. *)
Lemma world_transform_explicit (px py pz rx ry rz : Qc) :
  let k := Z2Qc 1 / Z2Qc 1000 * Q2Qc (28352 # 10000) in
  let t := mkVec3 (k * px) (k * py) (k * pz) in
  let R := euler_to_matrix
             (mkVec3 (- rx * degToRad) (- ry * degToRad) (- rz * degToRad))
             "ZYX" in
  let B := axis_conversion "Z" "Y" "-Y" "Z" in
  world_transform (mkVec3 px py pz) (mkVec3 rx ry rz)
  = affine (mat3_mul B R) (mat3_vec B t).
Proof.
  cbv zeta. unfold world_transform, local_transform.
  rewrite translation_after_rotation, basis_before_affine. reflexivity.
Qed.

(** What reading an anchor node has read. *)
Lemma read_xyz_ok_inv (node : option Element) (x y z : Qc) :
  read_xyz node = Ok (mkVec3 x y z) ->
  exists n sx sy sz,
    node = Some n
    /\ get n "X" = Some sx /\ float_of_string sx = Some x
    /\ get n "Y" = Some sy /\ float_of_string sy = Some y
    /\ get n "Z" = Some sz /\ float_of_string sz = Some z.
Proof.
  unfold read_xyz, get_attr, py_float. destruct node as [n|]; [|discriminate].
  cbn [rbind].
  destruct (get n "X") as [sx|] eqn:Gx; [|discriminate].
  destruct (float_of_string sx) as [x'|] eqn:Ex; [|discriminate]. cbn [rbind].
  destruct (get n "Y") as [sy|] eqn:Gy; [|discriminate].
  destruct (float_of_string sy) as [y'|] eqn:Ey; [|discriminate]. cbn [rbind].
  destruct (get n "Z") as [sz|] eqn:Gz; [|discriminate].
  destruct (float_of_string sz) as [z'|] eqn:Ez; [|discriminate]. cbn [rbind].
  intros H. injection H as <- <- <-.
  exists n, sx, sy, sz. now repeat split.
Qed.

Lemma read_anchor_ok_inv (anchorNode : Element) (nm : string) (x y z : Qc) :
  read_anchor anchorNode = Ok (nm, mkVec3 x y z) ->
  exists n p sx sy sz,
    find anchorNode path_Name = Some n /\ text n = Some nm
    /\ find anchorNode path_position_Default_p3 = Some p
    /\ get p "X" = Some sx /\ float_of_string sx = Some x
    /\ get p "Y" = Some sy /\ float_of_string sy = Some y
    /\ get p "Z" = Some sz /\ float_of_string sz = Some z.
Proof.
  unfold read_anchor.
  destruct (read_xyz (find anchorNode path_position_Default_p3))
    as [[x' y' z']|e] eqn:Ev; cbn [rbind]; [|discriminate].
  destruct (find anchorNode path_Name) as [n|]; [|discriminate].
  destruct (text n) as [t|] eqn:Et; [|discriminate].
  intros H. injection H as -> -> -> ->.
  apply read_xyz_ok_inv in Ev.
  destruct Ev as (p & sx & sy & sz & Hp & H).
  exists n, p, sx, sy, sz. split; [reflexivity|]. split; [exact Et|].
  split; [exact Hp | exact H].
Qed.

(** The marker of an anchor, field by field. *)
Lemma anchor_object_explicit (nm : string) (x y z : Qc) :
  let k := Z2Qc 1 / Z2Qc 1000 * Q2Qc (28352 # 10000) in
  let t := mkVec3 (k * x) (k * y) (k * z) in
  let B := axis_conversion "Z" "Y" "-Y" "Z" in
  let e := matrix_to_euler (affine B (mat3_vec B t)) in
  let o := anchor_object nm (mkVec3 x y z) in
  ob_type o = "EMPTY"
  /\ location o = mat3_vec B t
  /\ rotation_euler o = mkVec3 (vx e - Z2Qc 90 * degToRad) (vy e) (vz e)
  /\ empty_display_type o = "ARROWS"
  /\ empty_display_size o = Q2Qc (1 # 10).
Proof.
  cbv zeta.
  assert (Hm : anchor_matrix (mkVec3 x y z)
               = affine (axis_conversion "Z" "Y" "-Y" "Z")
                   (mat3_vec (axis_conversion "Z" "Y" "-Y" "Z")
                      (mkVec3
                         (Z2Qc 1 / Z2Qc 1000 * Q2Qc (28352 # 10000) * x)
                         (Z2Qc 1 / Z2Qc 1000 * Q2Qc (28352 # 10000) * y)
                         (Z2Qc 1 / Z2Qc 1000 * Q2Qc (28352 # 10000) * z))))
    by apply basis_before_translation.
  unfold anchor_object. cbv zeta. cbn [ob_type location rotation_euler
    empty_display_type empty_display_size]. rewrite Hm.
  split; [reflexivity|]. split; [apply to_translation_affine|].
  split; [reflexivity|]. now split.
Qed.

Lemma markers_of_readable (nodes : list Element) (added : list Object) :
  markers_of nodes added ->
  forallb (fun node => is_ok (read_anchor node)) nodes = true
  /\ List.length added = List.length nodes.
Proof.
  induction 1 as [|node o nodes added (nm & v & Hr & _) _ [IH1 IH2]].
  - now split.
  - cbn. rewrite Hr, IH1, IH2. now split.
Qed.

End Explicit.

(** ** The converters in binary64 arithmetic *)

Lemma PixelsPerMM_binary64 : Binary64.PixelsPerMM = binary64_2_8352.
Proof. vm_compute. reflexivity. Qed.

Lemma of_Z_36_binary64 : Binary64.of_Z 36 = binary64_36.
Proof. vm_compute. reflexivity. Qed.

Lemma truediv_PixelsPerMM (x : spec_float) :
  Binary64.truediv x Binary64.PixelsPerMM
  = Ok (SFdiv 53 1024 x binary64_2_8352).
Proof. rewrite PixelsPerMM_binary64. reflexivity. Qed.

Lemma zoomToLens_binary64 (zoom width : spec_float) :
  Binary64.zoomToLens zoom width
  = if SFeqb (SFdiv 53 1024 width binary64_2_8352) (S754_zero false)
    then Raise ZeroDivisionError
    else Ok (lens_formula zoom width).
Proof.
  unfold Binary64.zoomToLens. rewrite !truediv_PixelsPerMM. cbn [rbind].
  rewrite of_Z_36_binary64. unfold Binary64.truediv, Binary64.is_zero.
  now destruct (SFeqb _ _).
Qed.

(** * The properties of the specification *)

(** C1, as stated, fails: a document with no CameraLayer and two PointLayer
    elements gives Cancelled, but no marker object is created. *)
Lemma markers_without_camera_counterexample :
  count_tag "CameraLayer" Sample.doc_points_only = 0%nat
  /\ count_tag "PointLayer" Sample.doc_points_only = 2%nat
  /\ ~ (exists s',
          import_hitfilm_composite (host := Sample.host)
            Sample.doc_points_only Sample.empty_scene = (s', Ok CANCELLED)
          /\ List.length (objects s')
             = (List.length (objects Sample.empty_scene) + 2)%nat).
Proof.
  split; [reflexivity|]. split; [reflexivity|].
  intros (s' & E & Hl).
  rewrite (import_no_camera _ _ 1920 1080 30) in E by reflexivity.
  injection E as <-. discriminate Hl.
Qed.

(** C1, amended: for a document with a valid settings block, no CameraLayer
    and two PointLayer elements, the import returns Cancelled and creates
    no marker: the objects of the scene are unchanged, since the importer
    returns at the camera check, before it scans for point layers. *)
Theorem no_camera_no_markers {host : Host} (root : Element) (s : Scene)
    (w h f : Z) :
  read_settings root = Ok (w, h, f) ->
  count_tag "CameraLayer" root = 0%nat ->
  count_tag "PointLayer" root = 2%nat ->
  exists s',
    import_hitfilm_composite root s = (s', Ok CANCELLED)
    /\ objects s' = objects s.
Proof.
  intros Hs Hc _.
  exists (set_fps f (set_resolution_y h (set_resolution_x w s))).
  split; [|reflexivity].
  apply import_no_camera; [exact Hs|].
  now apply count_tag_zero_find.
Qed.

Lemma no_camera_no_markers_witness :
  exists s',
    import_hitfilm_composite (host := Sample.host)
      Sample.doc_points_only Sample.empty_scene = (s', Ok CANCELLED)
    /\ objects s' = objects Sample.empty_scene.
Proof.
  apply (no_camera_no_markers (host := Sample.host)
           Sample.doc_points_only Sample.empty_scene 1920 1080 30);
    reflexivity.
Defined.

(** C9: with a valid settings block and no camera layer the import returns
    Cancelled from a scene in which resolution_x, resolution_y and fps hold
    the width, height and frame rate of the document (values within the
    ranges Blender keeps these properties in) and nothing else has changed;
    and whenever an import returns Cancelled, the settings were read and
    written before, each kept within its range. *)
Theorem cancelled_after_settings {host : Host} (root : Element) (s : Scene)
    (w h f : Z) :
  read_settings root = Ok (w, h, f) ->
  count_tag "CameraLayer" root = 0%nat ->
  (4 <= w <= 65536)%Z -> (4 <= h <= 65536)%Z -> (1 <= f <= 32767)%Z ->
  (exists s',
     import_hitfilm_composite root s = (s', Ok CANCELLED)
     /\ resolution_x s' = w /\ resolution_y s' = h /\ fps s' = f
     /\ frame_end s' = frame_end s /\ frame_current s' = frame_current s
     /\ objects s' = objects s /\ active_object s' = active_object s
     /\ keyframes s' = keyframes s)
  /\ (forall root0 s0 s',
        import_hitfilm_composite root0 s0 = (s', Ok CANCELLED) ->
        exists w0 h0 f0,
          read_settings root0 = Ok (w0, h0, f0)
          /\ find root0 path_CameraLayer = None
          /\ resolution_x s' = Z.max 4 (Z.min 65536 w0)
          /\ resolution_y s' = Z.max 4 (Z.min 65536 h0)
          /\ fps s' = Z.max 1 (Z.min 32767 f0)
          /\ objects s' = objects s0 /\ keyframes s' = keyframes s0).
Proof.
  intros Hs Hc Hw Hh Hf. split.
  - eexists. split.
    + apply import_no_camera; [exact Hs | now apply count_tag_zero_find].
    + cbn. unfold clamp. repeat split; lia.
  - intros root0 s0 s' E. apply import_ok_inv in E.
    destruct E as (w0 & h0 & f0 & Hs0 & E). exists w0, h0, f0.
    destruct (find root0 path_CameraLayer).
    + destruct E as [E _]. discriminate E.
    + destruct E as [_ ->]. now repeat split.
Qed.

Lemma cancelled_after_settings_witness :
  Sample.small_scene = mkScene 640 480 25 100 7 [] None []
  /\ import_hitfilm_composite (host := Sample.host)
       Sample.doc_points_only Sample.small_scene
     = (mkScene 1920 1080 30 100 7 [] None [], Ok CANCELLED).
Proof.
  split; [reflexivity|].
  destruct (proj1 (cancelled_after_settings (host := Sample.host)
                     Sample.doc_points_only Sample.small_scene 1920 1080 30
                     eq_refl eq_refl
                     (conj (Zle_bool_imp_le 4 1920 eq_refl)
                           (Zle_bool_imp_le 1920 65536 eq_refl))
                     (conj (Zle_bool_imp_le 4 1080 eq_refl)
                           (Zle_bool_imp_le 1080 65536 eq_refl))
                     (conj (Zle_bool_imp_le 1 30 eq_refl)
                           (Zle_bool_imp_le 30 32767 eq_refl))))
    as (s' & E & Hx & Hy & Hf & He & Hc & Ho & Ha & Hk).
  rewrite E. f_equal. destruct s'. cbn in *. now subst.
Defined.

(** C2, as stated, fails: a camera with no position channel and a one-key
    rotation channel has an absent channel, and its non-empty channels agree
    with one another, yet reading its channels raises the assertion. *)
Lemma absent_position_counterexample :
  ~ (forall cameraNode : Element,
       well_formed_camera (host := Sample.host) cameraNode = true ->
       has_absent_channel cameraNode = true ->
       nonempty_channels_agree cameraNode = true ->
       exists c, read_channels (host := Sample.host) cameraNode = Ok c).
Proof.
  intros H.
  destruct (H (Sample.camera_of Sample.doc_rotation_only)) as [c Hc];
    try reflexivity.
  vm_compute in Hc. discriminate Hc.
Qed.

(** C2, amended: the position channel is the reference.  For a camera whose
    keys can all be read, the channels are read when the rotation and the
    zoom channel are each absent or as long as the position channel (which
    counts for no key when absent), an absent channel giving the empty
    sequence; otherwise the length assertion fails.  So absent rotation and
    zoom channels are accepted whatever the position length, and a non-empty
    rotation or zoom channel is refused when the position channel is
    absent. *)
Theorem position_is_the_reference {host : Host} (cameraNode : Element) :
  well_formed_camera cameraNode = true ->
  (lengths_agree cameraNode = true ->
   exists tk ps rs zs,
     read_channels cameraNode = Ok (tk, ps, rs, zs)
     /\ List.length tk = channel_length cameraNode path_position_Animation
     /\ List.length ps = channel_length cameraNode path_position_Animation
     /\ List.length rs = channel_length cameraNode path_orientation_Animation
     /\ List.length zs = channel_length cameraNode path_zoom_Animation)
  /\ (lengths_agree cameraNode = false ->
      read_channels cameraNode = Raise AssertionError)
  /\ (absent cameraNode path_orientation_Animation = true ->
      absent cameraNode path_zoom_Animation = true ->
      exists tk ps, read_channels cameraNode = Ok (tk, ps, [], []))
  /\ (absent cameraNode path_position_Animation = true ->
      (0 < channel_length cameraNode path_orientation_Animation
       \/ 0 < channel_length cameraNode path_zoom_Animation)%nat ->
      read_channels cameraNode = Raise AssertionError).
Proof.
  intros Hwf. pose proof (read_channels_cases cameraNode Hwf) as Hc.
  repeat split.
  - intros Ha. now rewrite Ha in Hc.
  - intros Ha. now rewrite Ha in Hc.
  - intros Hr Hz.
    assert (Ha : lengths_agree cameraNode = true)
      by (unfold lengths_agree, matches_position; now rewrite Hr, Hz).
    rewrite Ha in Hc. destruct Hc as (tk & ps & rs & zs & E & _ & _ & Lr & Lz).
    rewrite (absent_length _ _ Hr) in Lr. rewrite (absent_length _ _ Hz) in Lz.
    apply length_zero_iff_nil in Lr, Lz. subst rs zs. now exists tk, ps.
  - intros Hp Hnz.
    assert (Ha : lengths_agree cameraNode = false).
    { unfold lengths_agree, matches_position, absent.
      rewrite (absent_length _ _ Hp).
      unfold channel_length in *.
      destruct Hnz as [Hn|Hn].
      - destruct (channel_keys cameraNode path_orientation_Animation)
          as [[|k ks]|]; cbn in Hn |- *; solve [lia | reflexivity].
      - destruct (channel_keys cameraNode path_zoom_Animation)
          as [[|k ks]|]; cbn in Hn |- *;
          solve [lia | now rewrite andb_false_r]. }
    now rewrite Ha in Hc.
Qed.

Lemma position_is_the_reference_witness :
  absent (Sample.camera_of Sample.doc_no_zoom) path_zoom_Animation = true
  /\ exists tk ps rs zs,
       read_channels (host := Sample.host)
         (Sample.camera_of Sample.doc_no_zoom) = Ok (tk, ps, rs, zs)
       /\ List.length tk = 1%nat /\ List.length ps = 1%nat
       /\ List.length rs = 1%nat /\ List.length zs = 0%nat.
Proof.
  split; [reflexivity|].
  apply (proj1 (position_is_the_reference (host := Sample.host)
                  (Sample.camera_of Sample.doc_no_zoom) eq_refl)).
  reflexivity.
Defined.

(** C3 fails on the code: when the zoom channel is absent and the position
    channel has keys, the channels are read and the end frame is set, but
    the loop reads camZoomVals[0] at its first frame: the import raises
    IndexError instead of skipping the lens key, and no key is inserted. *)
Theorem absent_zoom_raises {host : Host} (root : Element) (s : Scene)
    (w h f : Z) (cameraNode : Element) :
  read_settings root = Ok (w, h, f) ->
  find root path_CameraLayer = Some cameraNode ->
  well_formed_camera cameraNode = true ->
  lengths_agree cameraNode = true ->
  absent cameraNode path_zoom_Animation = true ->
  (0 < channel_length cameraNode path_position_Animation)%nat ->
  exists s',
    import_hitfilm_composite root s = (s', Raise IndexError)
    /\ frame_end s'
       = Z.of_nat (channel_length cameraNode path_position_Animation)
    /\ frame_current s' = 0%Z
    /\ keyframes s' = keyframes s.
Proof.
  intros Hs Hc Hwf Ha Hz Hn.
  pose proof (read_channels_cases cameraNode Hwf) as Hch. rewrite Ha in Hch.
  destruct Hch as (tk & ps & rs & zs & Hch & Ltk & _ & _ & Lzs).
  rewrite (absent_length _ _ Hz) in Lzs. apply length_zero_iff_nil in Lzs.
  subst zs. rewrite <- Ltk in *.
  destruct tk as [|t tk]; [cbn in Hn; lia|].
  unfold import_hitfilm_composite.
  rewrite (bind_ok _ _ s s (w, h, f)) by (unfold lift; now rewrite Hs).
  do 3 (erewrite bind_ok by reflexivity). rewrite Hc.
  erewrite bind_ok by (unfold lift; now rewrite Hch).
  cbv beta iota. do 3 (erewrite bind_ok by reflexivity).
  cbn [active_object set_active_object].
  erewrite bind_ok by (apply (setattr_snoc (objects s)); reflexivity).
  erewrite bind_ok by (apply (setattr_snoc (objects s)); reflexivity).
  eexists. split.
  - apply bind_raise. cbn [List.length seq for_each].
    apply bind_raise. unfold camera_frame.
    erewrite bind_ok by reflexivity.
    apply bind_raise. reflexivity.
  - split; [|split]; reflexivity.
Qed.

Lemma absent_zoom_raises_witness :
  exists s',
    import_hitfilm_composite (host := Sample.host)
      Sample.doc_no_zoom Sample.empty_scene = (s', Raise IndexError)
    /\ frame_end s' = 1%Z /\ frame_current s' = 0%Z
    /\ keyframes s' = keyframes Sample.empty_scene.
Proof.
  apply (absent_zoom_raises (host := Sample.host)
           Sample.doc_no_zoom Sample.empty_scene 1920 1080 30
           (Sample.camera_of Sample.doc_no_zoom));
    solve [reflexivity | cbn; lia].
Defined.

(** C4, as stated, fails: a camera with one-key rotation and zoom channels
    and no position channel has all its non-empty channels of length 1, but
    the import does not set the end frame to 1: it fails the assertion. *)
Lemma frame_count_counterexample :
  ~ (forall (root : Element) (s : Scene) (w h f : Z) (cameraNode : Element)
            (n : nat),
       read_settings (host := Sample.host) root = Ok (w, h, f) ->
       find root path_CameraLayer = Some cameraNode ->
       well_formed_camera (host := Sample.host) cameraNode = true ->
       nonempty_channels_have cameraNode n = true ->
       exists s' r,
         import_hitfilm_composite (host := Sample.host) root s = (s', r)
         /\ frame_end s' = Z.of_nat n).
Proof.
  intros H.
  destruct (H Sample.doc_no_position Sample.empty_scene 1920 1080 30
              (Sample.camera_of Sample.doc_no_position) 1%nat)
    as (s' & r & E & Hf); try reflexivity.
  rewrite (import_channels_raise (host := Sample.host)
             Sample.doc_no_position Sample.empty_scene 1920 1080 30
             (Sample.camera_of Sample.doc_no_position)
             eq_refl eq_refl AssertionError) in E by reflexivity.
  injection E as <- <-. discriminate Hf.
Qed.

(** C4, amended: the frame count is the number of position keys.  For a
    camera whose keys can all be read: when the rotation and zoom channels
    are each absent or as long as the position channel, the end frame is set
    to the number N of position keys; when both have N keys and the width is
    not zero, the frames 0 to N-1 are keyed, two keys each; and when two
    non-empty channels differ in length the import fails the length
    assertion, with the settings written and nothing else. *)
Theorem frame_count_is_position_count {host : Host} (root : Element)
    (s : Scene) (w h f : Z) (cameraNode : Element) :
  read_settings root = Ok (w, h, f) ->
  find root path_CameraLayer = Some cameraNode ->
  well_formed_camera cameraNode = true ->
  (lengths_agree cameraNode = true ->
   exists s' r,
     import_hitfilm_composite root s = (s', r)
     /\ frame_end s'
        = Z.of_nat (channel_length cameraNode path_position_Animation))
  /\ (channel_length cameraNode path_orientation_Animation
      = channel_length cameraNode path_position_Animation ->
      channel_length cameraNode path_zoom_Animation
      = channel_length cameraNode path_position_Animation ->
      Z2Qc w <> 0 ->
      exists s' r tk ps rs zs,
        import_hitfilm_composite root s = (s', r)
        /\ read_channels cameraNode = Ok (tk, ps, rs, zs)
        /\ List.length tk
           = channel_length cameraNode path_position_Animation
        /\ keyframes s'
           = keyframes s
             ++ flat_map (frame_keys (List.length (objects s)) w ps rs zs)
                         (seq 0 (List.length tk))
        /\ List.length (keyframes s')
           = (List.length (keyframes s) + 2 * List.length tk)%nat)
  /\ (nonempty_channels_agree cameraNode = false ->
      import_hitfilm_composite root s
      = (set_fps f (set_resolution_y h (set_resolution_x w s)),
         Raise AssertionError)).
Proof.
  intros Hs Hc Hwf.
  pose proof (read_channels_cases cameraNode Hwf) as Hch.
  split; [|split].
  - intros Ha. rewrite Ha in Hch.
    destruct Hch as (tk & ps & rs & zs & Hch & Ltk & _).
    rewrite <- Ltk. now apply (import_frame_end root s w h f cameraNode Hs Hc
                                 tk ps rs zs).
  - intros Lr Lz Hw.
    assert (Ha : lengths_agree cameraNode = true).
    { unfold lengths_agree, matches_position.
      now rewrite Lr, Lz, Nat.eqb_refl, !orb_true_r. }
    rewrite Ha in Hch.
    destruct Hch as (tk & ps & rs & zs & Hch & Ltk & Lps & Lrs & Lzs).
    destruct (import_keys_all_frames root s w h f cameraNode Hs Hc
                tk ps rs zs Hch) as (s' & r & E & Hk); try congruence.
    exists s', r, tk, ps, rs, zs. repeat split; try assumption.
    rewrite Hk, length_app. f_equal.
    assert (L : forall n a,
               List.length
                 (flat_map (frame_keys (List.length (objects s)) w ps rs zs)
                           (seq a n)) = (2 * n)%nat).
    { induction n as [|n IH]; intros a; [reflexivity|].
      cbn [seq flat_map]. rewrite length_app, IH. cbn. lia. }
    apply L.
  - intros Hn. apply (import_channels_raise root s w h f cameraNode Hs Hc).
    destruct (lengths_agree cameraNode) eqn:Ha; [|exact Hch].
    apply lengths_agree_nonempty in Ha. congruence.
Qed.

Lemma frame_count_is_position_count_witness :
  exists s' r tk ps rs zs,
    import_hitfilm_composite (host := Sample.host)
      Sample.doc_full Sample.empty_scene = (s', r)
    /\ read_channels (host := Sample.host)
         (Sample.camera_of Sample.doc_full) = Ok (tk, ps, rs, zs)
    /\ List.length tk = 2%nat
    /\ keyframes s'
       = keyframes Sample.empty_scene
         ++ flat_map (frame_keys (host := Sample.host) 0 1920 ps rs zs)
                     (seq 0 (List.length tk))
    /\ List.length (keyframes s') = (0 + 2 * List.length tk)%nat.
Proof.
  apply (proj1 (proj2 (frame_count_is_position_count (host := Sample.host)
                         Sample.doc_full Sample.empty_scene 1920 1080 30
                         (Sample.camera_of Sample.doc_full)
                         eq_refl eq_refl eq_refl))).
  - reflexivity.
  - reflexivity.
  - intros E. discriminate (f_equal this E).
Defined.

(** C5: in an import that finishes, every frame has a position and a
    rotation sample, and the location and rotation keyed at frame i are
    those of the world transform built from them in the order of the
    specification: the three euler angles negated and converted to radians,
    the rotation matrix R of order ZYX; the position scaled by
    (1/1000)*2.8352 into t; translation after rotation, the matrix with
    linear part R and translation t; and the basis change B from forward Z,
    up Y to forward -Y, up Z multiplied on the left, which gives the linear
    part B*R and the translation B*t. *)
Theorem camera_world_transform {host : Host} (root : Element) (s s' : Scene) :
  import_hitfilm_composite root s = (s', Ok FINISHED) ->
  exists cameraNode tk ps rs zs w h f,
    find root path_CameraLayer = Some cameraNode
    /\ read_settings root = Ok (w, h, f)
    /\ read_channels cameraNode = Ok (tk, ps, rs, zs)
    /\ List.length ps = List.length tk
    /\ List.length rs = List.length tk
    /\ (forall i px py pz rx ry rz,
          nth_error ps i = Some (mkVec3 px py pz) ->
          nth_error rs i = Some (mkVec3 rx ry rz) ->
          let k := Z2Qc 1 / Z2Qc 1000 * Q2Qc (28352 # 10000) in
          let t := mkVec3 (k * px) (k * py) (k * pz) in
          let R := euler_to_matrix
                     (mkVec3 (- rx * degToRad) (- ry * degToRad)
                             (- rz * degToRad)) "ZYX" in
          let B := axis_conversion "Z" "Y" "-Y" "Z" in
          Translation t @@ to_4x4 R = affine R t
          /\ to_4x4 B @@ (Translation t @@ to_4x4 R)
             = affine (mat3_mul B R) (mat3_vec B t)
          /\ In (KeyLocRot (List.length (objects s)) (Z.of_nat i)
                           (mat3_vec B t)
                           (matrix_to_euler
                              (affine (mat3_mul B R) (mat3_vec B t))))
                (keyframes s')).
Proof.
  intros E. apply import_ok_inv in E.
  destruct E as (w & h & f & Hs & E).
  destruct (find root path_CameraLayer) as [cameraNode|];
    [|destruct E as [E _]; discriminate E].
  destruct E as (_ & tk & ps & rs & zs & camob & added & Hch & Hall & _ & _
                 & _ & _ & _ & Hk & _).
  destruct (read_channels_ok_inv _ _ _ _ _ Hch) as (Lps & Lrs & Lzs).
  assert (Hrs : List.length rs = List.length tk).
  { assert (List.length tk <= List.length rs)%nat.
    { apply nth_error_all_length. intros i Hi.
      destruct (Hall i Hi) as (z & l & p & r & _ & _ & Hr & _). now exists r. }
    destruct Lrs as [-> | Lrs]; [cbn in *; lia | exact Lrs]. }
  exists cameraNode, tk, ps, rs, zs, w, h, f.
  split; [reflexivity|]. split; [exact Hs|]. split; [exact Hch|].
  split; [exact Lps|]. split; [exact Hrs|].
  intros i px py pz rx ry rz Hp Hr. cbv zeta.
  split; [apply translation_after_rotation|]. split.
  - rewrite translation_after_rotation. apply basis_before_affine.
  - rewrite Hk. apply in_or_app. right.
    apply in_flat_map. exists i. split.
    + apply in_seq. split; [lia|]. cbn. rewrite <- Lps.
      apply nth_error_Some. congruence.
    + unfold frame_keys.
      rewrite (nth_error_nth _ _ vec3_zero Hp), (nth_error_nth _ _ vec3_zero Hr).
      right. left.
      pose proof (world_transform_explicit px py pz rx ry rz) as W.
      cbv zeta in W. rewrite W. now rewrite to_translation_affine.
Qed.

Lemma camera_world_transform_witness :
  exists s' rot,
    import_hitfilm_composite (host := Sample.host)
      Sample.doc_full Sample.empty_scene = (s', Ok FINISHED)
    /\ In (KeyLocRot 0 1
             (mkVec3 (Q2Qc (28352 # 10000)) (Q2Qc (14176 # 10000))
                     (Q2Qc (56704 # 10000)))
             rot)
          (keyframes s').
Proof.
  destruct (camera_world_transform (host := Sample.host) Sample.doc_full
              Sample.empty_scene _ sample_full_finished)
    as (c & tk & ps & rs & zs & w & h & f & H1 & H2 & H3 & H4 & H5 & H6).
  assert (Fc : find Sample.doc_full path_CameraLayer
               = Some (Sample.camera_of Sample.doc_full)) by reflexivity.
  rewrite Fc in H1. injection H1 as <-.
  assert (R : read_channels (host := Sample.host)
                (Sample.camera_of Sample.doc_full)
              = Ok ([Some "0"; Some "1"],
                    [mkVec3 (Z2Qc 1000) (Z2Qc 0) (Z2Qc 0);
                     mkVec3 (Z2Qc 1000) (Z2Qc 2000) (- Z2Qc 500)],
                    [mkVec3 (Z2Qc 0) (Z2Qc 0) (Z2Qc 0);
                     mkVec3 (Z2Qc 10) (- Z2Qc 20) (Z2Qc 30)],
                    [Z2Qc 1500; Z2Qc 1600 + Z2Qc 5 / Z2Qc (10 ^ 1)]))
    by reflexivity.
  rewrite R in H3. injection H3 as <- <- <- <-.
  destruct (H6 1%nat _ _ _ _ _ _ eq_refl eq_refl) as (_ & _ & HIn).
  cbv zeta in HIn.
  eexists. eexists. split; [exact sample_full_finished|].
  replace (mkVec3 (Q2Qc (28352 # 10000)) (Q2Qc (14176 # 10000))
                  (Q2Qc (56704 # 10000)))
    with (mat3_vec (axis_conversion (Host := Sample.host) "Z" "Y" "-Y" "Z")
            (mkVec3
               (Z2Qc 1 / Z2Qc 1000 * Q2Qc (28352 # 10000) * Z2Qc 1000)
               (Z2Qc 1 / Z2Qc 1000 * Q2Qc (28352 # 10000) * Z2Qc 2000)
               (Z2Qc 1 / Z2Qc 1000 * Q2Qc (28352 # 10000) * - Z2Qc 500)));
    [exact HIn|].
  unfold mat3_vec, dot3. cbn [axis_conversion Sample.host Sample.y_up_to_z_up
    m3_0 m3_1 m3_2 vx vy vz].
  apply (f_equal3 mkVec3); apply Qc_is_canon; vm_compute; reflexivity.
Defined.

(** C6: in an import that finishes, one marker is made for each point layer
    of the document, after the camera.  The position of each is read from
    the X, Y and Z attributes of the layer's p3 element and scaled by
    (1/1000)*2.8352, the scaling of the camera positions; the marker is
    located at the basis change B (forward Z, up Y to forward -Y, up Z)
    applied to the scaled position; and its rotation is the one read off
    the matrix "B, translated" with 90 degrees taken off the X angle, the
    rotation pipeline of the camera taking no part.  The scaling takes
    X=1000 to 2.8352, in exact and in binary64 arithmetic. *)
Theorem anchor_transform {host : Host} (root : Element) (s s' : Scene) :
  import_hitfilm_composite root s = (s', Ok FINISHED) ->
  exists camob markers,
    objects s' = objects s ++ camob :: markers
    /\ List.length markers = count_below_children "PointLayer" root
    /\ Forall2 (fun node o =>
                  exists nm p sx sy sz x y z,
                    tag node = "PointLayer"
                    /\ find node path_position_Default_p3 = Some p
                    /\ get p "X" = Some sx /\ float_of_string sx = Some x
                    /\ get p "Y" = Some sy /\ float_of_string sy = Some y
                    /\ get p "Z" = Some sz /\ float_of_string sz = Some z
                    /\ read_anchor node = Ok (nm, mkVec3 x y z)
                    /\ let k := Z2Qc 1 / Z2Qc 1000 * Q2Qc (28352 # 10000) in
                       let t := mkVec3 (k * x) (k * y) (k * z) in
                       let B := axis_conversion "Z" "Y" "-Y" "Z" in
                       let e := matrix_to_euler (affine B (mat3_vec B t)) in
                       ob_type o = "EMPTY"
                       /\ location o = mat3_vec B t
                       /\ rotation_euler o
                          = mkVec3 (vx e - Z2Qc 90 * degToRad) (vy e) (vz e)
                       /\ empty_display_type o = "ARROWS"
                       /\ empty_display_size o = Q2Qc (1 # 10))
               (findall root path_PointLayer) markers
    /\ blenderScale * Z2Qc 1000 = Q2Qc (28352 # 10000)
    /\ SFmul 53 1024 Binary64.blenderScale (Binary64.of_Z 1000)
       = binary64_2_8352.
Proof.
  intros E. apply import_ok_inv in E.
  destruct E as (w & h & f & Hs & E).
  destruct (find root path_CameraLayer) as [cameraNode|];
    [|destruct E as [E _]; discriminate E].
  destruct E as (_ & tk & ps & rs & zs & camob & added & _ & _ & Hm & Ho & _).
  exists camob, added. split; [exact Ho|]. split; [|split; [|split]].
  - rewrite <- length_findall_below_children.
    exact (proj2 (markers_of_readable _ _ Hm)).
  - assert (Ht : Forall (fun node => tag node = "PointLayer")
                        (findall root path_PointLayer)).
    { apply Forall_forall. intros node Hn.
      now apply iterfind_descendant_child_in in Hn. }
    clear Ho. unfold markers_of in Hm. revert Ht.
    induction Hm as [|node o nodes objs (nm & [x y z] & Hr & ->) _ IH];
      intros Ht; [constructor|].
    apply Forall_cons_iff in Ht. destruct Ht as [Ht Hts].
    constructor; [|exact (IH Hts)].
    destruct (read_anchor_ok_inv _ _ _ _ _ Hr)
      as (n & p & sx & sy & sz & _ & _ & Hp & Hx & Fx & Hy & Fy & Hz & Fz).
    exists nm, p, sx, sy, sz, x, y, z.
    repeat (split; [assumption|]).
    apply anchor_object_explicit.
  - exact blenderScale_1000.
  - vm_compute. reflexivity.
Qed.

Lemma anchor_transform_witness :
  exists s' camob m1 m2,
    import_hitfilm_composite (host := Sample.host)
      Sample.doc_full Sample.empty_scene = (s', Ok FINISHED)
    /\ objects s' = [camob; m1; m2]
    /\ location m1 = mkVec3 (Q2Qc (28352 # 10000)) (Q2Qc 0) (Q2Qc 0)
    /\ location m2
       = mkVec3 (Q2Qc 0) (Q2Qc (-7088 # 10000)) (Q2Qc (14176 # 10000)).
Proof.
  destruct (anchor_transform (host := Sample.host) Sample.doc_full
              Sample.empty_scene _ sample_full_finished)
    as (camob & markers & Ho & Hl & Hm & _).
  assert (F : findall Sample.doc_full path_PointLayer
              = [Sample.point "Anchor 1" "1000" "0" "0";
                 Sample.point "Anchor 2" "0" "500" "250"]) by reflexivity.
  rewrite F in Hm.
  inversion Hm as [|n1 m1 l1 ms1 H1 Hm1]; subst.
  inversion Hm1 as [|n2 m2 l2 ms2 H2 Hm2]; subst.
  inversion Hm2; subst.
  exists (fst (import_hitfilm_composite (host := Sample.host)
                 Sample.doc_full Sample.empty_scene)), camob, m1, m2.
  split; [exact sample_full_finished|]. split; [exact Ho|].
  destruct H1 as (nm1 & p1 & sx1 & sy1 & sz1 & x1 & y1 & z1 & _ & Hp1 & Hx1
                  & Fx1 & Hy1 & Fy1 & Hz1 & Fz1 & _ & _ & L1 & _).
  destruct H2 as (nm2 & p2 & sx2 & sy2 & sz2 & x2 & y2 & z2 & _ & Hp2 & Hx2
                  & Fx2 & Hy2 & Fy2 & Hz2 & Fz2 & _ & _ & L2 & _).
  injection Hp1 as <-. injection Hp2 as <-.
  injection Hx1 as <-. injection Hy1 as <-. injection Hz1 as <-.
  injection Hx2 as <-. injection Hy2 as <-. injection Hz2 as <-.
  injection Fx1 as <-. injection Fy1 as <-. injection Fz1 as <-.
  injection Fx2 as <-. injection Fy2 as <-. injection Fz2 as <-.
  rewrite L1, L2. unfold mat3_vec, dot3.
  cbn [axis_conversion Sample.host Sample.y_up_to_z_up m3_0 m3_1 m3_2
       vx vy vz].
  split; apply (f_equal3 mkVec3); apply Qc_is_canon; vm_compute;
    reflexivity.
Defined.

(** C7, as stated, fails in binary64 arithmetic: the width 5e-324 is a
    binary64 number other than zero, but the width in millimetres it gives,
    5e-324 / 2.8352, is rounded to 0.0 and the division on line 46 raises
    ZeroDivisionError instead of returning the value of the formula. *)
Lemma zoomToLens_tiny_width_counterexample :
  ~ (forall zoom width : spec_float,
       valid_binary 53 1024 width = true ->
       SFeqb width (S754_zero false) = false ->
       Binary64.zoomToLens zoom width = Ok (lens_formula zoom width)).
Proof.
  intros H.
  specialize (H binary64_36 binary64_min eq_refl eq_refl).
  vm_compute in H. discriminate H.
Qed.

(** C7, amended: when the width in millimetres, the binary64 quotient of
    the width by 2.8352, is not zero, [zoomToLens] returns
    (36.0 * (zoom / 2.8352)) / (width / 2.8352), each division and the
    product rounded to binary64; when it is zero [zoomToLens] raises
    ZeroDivisionError.  PixelsPerMM is the binary64 number nearest to
    2.8352. *)
Theorem zoomToLens_formula (zoom width : spec_float) :
  SFeqb (SFdiv 53 1024 width binary64_2_8352) (S754_zero false) = false ->
  Binary64.zoomToLens zoom width
  = Ok (SFdiv 53 1024
          (SFmul 53 1024 binary64_36 (SFdiv 53 1024 zoom binary64_2_8352))
          (SFdiv 53 1024 width binary64_2_8352))
  /\ (forall width0,
        SFeqb (SFdiv 53 1024 width0 binary64_2_8352) (S754_zero false) = true ->
        Binary64.zoomToLens zoom width0 = Raise ZeroDivisionError)
  /\ Binary64.PixelsPerMM = S754_finite false 6384302831760415 (-51).
Proof.
  intros Hw. split; [|split].
  - rewrite zoomToLens_binary64, Hw. reflexivity.
  - intros width0 H0. now rewrite zoomToLens_binary64, H0.
  - exact PixelsPerMM_binary64.
Qed.

(** zoomToLens(1500, 1920) is 7916483719987201 * 2^-48, the binary64 number
    written 28.125000000000004. *)
Lemma zoomToLens_formula_witness :
  Binary64.zoomToLens (Binary64.of_Z 1500) (Binary64.of_Z 1920)
  = Ok (S754_finite false 7916483719987201 (-48)).
Proof.
  rewrite (proj1 (zoomToLens_formula (Binary64.of_Z 1500)
                    (Binary64.of_Z 1920) eq_refl)).
  vm_compute. reflexivity.
Defined.

(** C10: the values of the Time attributes do not influence the import: two
    documents that differ only in the values of Time attributes give the
    same scene and the same result from every scene (the time keys are
    counted, never read). *)
Theorem time_values_are_ignored {host : Host} (d1 d2 : Element) (s : Scene) :
  blank_time d1 = blank_time d2 ->
  import_hitfilm_composite d1 s = import_hitfilm_composite d2 s.
Proof.
  intros H.
  rewrite <- (import_blank_time d1), <- (import_blank_time d2).
  now rewrite H.
Qed.

Lemma time_values_are_ignored_witness :
  Sample.doc_full_at "0" "1" <> Sample.doc_full_at "40" "80"
  /\ import_hitfilm_composite (host := Sample.host)
       (Sample.doc_full_at "0" "1") Sample.empty_scene
     = import_hitfilm_composite (host := Sample.host)
         (Sample.doc_full_at "40" "80") Sample.empty_scene.
Proof.
  split; [discriminate|].
  apply (time_values_are_ignored (host := Sample.host)). reflexivity.
Defined.

(** * Further properties of the code *)

(** ** The converters *)

Lemma calculateFOV_binary64 (atan : spec_float -> spec_float)
    (zoom height : spec_float) :
  Binary64.calculateFOV atan zoom height
  = if SFeqb (SFdiv 53 1024 zoom binary64_2_8352) (S754_zero false)
    then Raise ZeroDivisionError
    else Ok (SFmul 53 1024
               (atan (SFdiv 53 1024
                        (SFmul 53 1024 (SFdiv 53 1024 height binary64_2_8352)
                               binary64_half)
                        (SFdiv 53 1024 zoom binary64_2_8352)))
               binary64_2).
Proof.
  unfold Binary64.calculateFOV. rewrite !truediv_PixelsPerMM. cbn [rbind].
  unfold Binary64.truediv, Binary64.is_zero.
  now destruct (SFeqb _ _).
Qed.

(** X3: [calculateFOV] never raises on the height; it raises, and then
    ZeroDivisionError, exactly when the zoom in millimetres, the binary64
    quotient zoom / 2.8352, is zero, which it is for the zoom 0.0 and also
    for the zoom 5e-324; otherwise it returns
    atan((height / 2.8352 * 0.5) / (zoom / 2.8352)) * 2.0, every operation
    rounded to binary64. *)
Theorem calculateFOV_value (atan : spec_float -> spec_float)
    (zoom height : spec_float) :
  Binary64.calculateFOV atan zoom height
  = (if SFeqb (SFdiv 53 1024 zoom binary64_2_8352) (S754_zero false)
     then Raise ZeroDivisionError
     else Ok (SFmul 53 1024
                (atan (SFdiv 53 1024
                         (SFmul 53 1024
                                (SFdiv 53 1024 height binary64_2_8352)
                                (S754_finite false 4503599627370496 (-53)))
                         (SFdiv 53 1024 zoom binary64_2_8352)))
                (S754_finite false 4503599627370496 (-51))))
  /\ Binary64.calculateFOV atan (S754_zero false) height
     = Raise ZeroDivisionError
  /\ Binary64.calculateFOV atan (S754_finite false 1 (-1074)) height
     = Raise ZeroDivisionError.
Proof.
  split; [apply calculateFOV_binary64|].
  split; now rewrite calculateFOV_binary64.
Qed.

(** ** The settings and the paths *)

Lemma descendant_has_parent (k : Element) :
  forall c, In c (descendants k) ->
            exists d, (d = k \/ In d (descendants k)) /\ In c (children d).
Proof.
  induction k as [t a x cs IH] using Element_forall_ind.
  intros c Hc. rewrite descendants_unfold in Hc. cbn [children] in Hc.
  apply in_flat_map in Hc. destruct Hc as (j & Hj & Hc).
  destruct Hc as [<- | Hc].
  - exists (Elem t a x cs). split; [now left | exact Hj].
  - rewrite Forall_forall in IH. destruct (IH j Hj c Hc) as (d & Hd & Hcd).
    exists d. split; [right | exact Hcd].
    destruct Hd as [-> | Hd].
    + now apply child_is_descendant.
    + eapply descendants_trans; [|exact Hd].
      now apply (child_is_descendant (Elem t a x cs)).
Qed.

Lemma findall_below_children (root c : Element) (t : string) :
  In c (findall root [Self; Descendant_any; Child t])
  <-> tag c = t /\ In c (flat_map descendants (children root)).
Proof.
  unfold findall. rewrite iterfind_descendant_child. split.
  - intros Hc. apply in_flat_map in Hc. destruct Hc as (d & Hd & Hc).
    apply filter_In in Hc. destruct Hc as [Hc Ht].
    split; [now apply String.eqb_eq|].
    rewrite descendants_unfold in Hd.
    apply in_flat_map in Hd. destruct Hd as (k & Hk & Hd).
    apply in_flat_map. exists k. split; [exact Hk|].
    destruct Hd as [<- | Hd].
    + now apply child_is_descendant.
    + eapply descendants_trans; [exact Hd | now apply child_is_descendant].
  - intros [Ht Hc]. apply in_flat_map in Hc. destruct Hc as (k & Hk & Hc).
    destruct (descendant_has_parent k c Hc) as (d & Hd & Hcd).
    apply in_flat_map. exists d. split.
    + destruct Hd as [-> | Hd].
      * now apply child_is_descendant.
      * eapply descendants_trans; [|exact Hd]. now apply child_is_descendant.
    + apply filter_In. split; [exact Hcd | now apply String.eqb_eq].
Qed.

(** X5: the three settings are read before any of them is written: when
    width and height are read and the frame rate cannot be, the import
    raises from the scene as it was, nothing written: with AttributeError
    when the settings block has no FrameRate element, TypeError when the
    element has no text, and ValueError when its text is not an integer. *)
Theorem settings_read_before_written {host : Host} (root : Element)
    (s : Scene) (av : Element) (w h : Z) :
  find root path_AudioVideoSettings = Some av ->
  read_setting (Some av) "Width" = Ok w ->
  read_setting (Some av) "Height" = Ok h ->
  (find av [Child "FrameRate"] = None ->
   import_hitfilm_composite root s = (s, Raise AttributeError))
  /\ (forall n, find av [Child "FrameRate"] = Some n -> text n = None ->
                import_hitfilm_composite root s = (s, Raise TypeError))
  /\ (forall n t, find av [Child "FrameRate"] = Some n -> text n = Some t ->
                  int_of_string t = None ->
                  import_hitfilm_composite root s = (s, Raise ValueError)).
Proof.
  intros Hav Hw Hh.
  assert (H : forall e, read_setting (Some av) "FrameRate" = Raise e ->
                        import_hitfilm_composite root s = (s, Raise e)).
  { intros e He. unfold import_hitfilm_composite.
    apply bind_raise. unfold lift, read_settings.
    now rewrite Hav, Hw, Hh, He. }
  split; [|split].
  - intros Hf. apply H. unfold read_setting, find_text. now rewrite Hf.
  - intros n Hf Ht. apply H. unfold read_setting, find_text.
    rewrite Hf, Ht. reflexivity.
  - intros n t Hf Ht Hi. apply H. unfold read_setting, find_text.
    rewrite Hf, Ht. cbn. now rewrite Hi.
Qed.

Lemma settings_read_before_written_witness :
  import_hitfilm_composite (host := Sample.host)
    Sample.doc_no_frame_rate Sample.small_scene
  = (mkScene 640 480 25 100 7 [] None [], Raise AttributeError).
Proof.
  apply (proj1 (settings_read_before_written (host := Sample.host)
                  Sample.doc_no_frame_rate Sample.small_scene
                  (Sample.node "AudioVideoSettings"
                     [Sample.leaf "Width" "1920"; Sample.leaf "Height" "1080"])
                  1920%Z 1080%Z eq_refl eq_refl eq_refl)).
  reflexivity.
Defined.

Lemma find_none_below_children (root : Element) (t : string) :
  find root [Self; Descendant_any; Child t] = None
  <-> tagged_below_children t root = false.
Proof.
  unfold tagged_below_children, find. split.
  - intros Hn.
    destruct (existsb _ _) eqn:E; [exfalso | reflexivity].
    apply existsb_exists in E. destruct E as (c & Hc & Ht).
    apply String.eqb_eq in Ht.
    assert (Hin : In c (findall root [Self; Descendant_any; Child t]))
      by (apply findall_below_children; now split).
    unfold findall in Hin.
    destruct (iterfind root [Self; Descendant_any; Child t]);
      [exact Hin | discriminate Hn].
  - intros Hf.
    destruct (iterfind root [Self; Descendant_any; Child t]) as [|c l] eqn:E;
      [reflexivity | exfalso].
    assert (Hin : In c (findall root [Self; Descendant_any; Child t]))
      by (unfold findall; rewrite E; now left).
    apply findall_below_children in Hin. destruct Hin as [Ht Hc].
    assert (Ht' : existsb (fun c => String.eqb (tag c) t)
                          (flat_map descendants (children root)) = true).
    { apply existsb_exists. exists c. split; [exact Hc|].
      now apply String.eqb_eq. }
    congruence.
Qed.

(** X6: a path ".//*tag" finds the elements with that tag that lie below
    the children of the element searched, and only those: the element
    itself and its children are never found, whatever their tags, and the
    search finds nothing exactly when no element with the tag lies that
    deep. *)
Theorem find_needs_depth_two (root : Element) (t : string) :
  (forall c, In c (findall root [Self; Descendant_any; Child t])
             <-> tag c = t /\ In c (flat_map descendants (children root)))
  /\ (find root [Self; Descendant_any; Child t] = None
      <-> tagged_below_children t root = false).
Proof.
  split; [intros c; apply findall_below_children
         | apply find_none_below_children].
Qed.

(** X7: a camera layer that is the root element or one of its children is
    not seen: with valid settings and no CameraLayer below the children of
    the root, the import returns Cancelled with the settings written, even
    when the document has CameraLayer elements. *)
Theorem shallow_camera_cancelled {host : Host} (root : Element) (s : Scene)
    (w h f : Z) :
  read_settings root = Ok (w, h, f) ->
  tagged_below_children "CameraLayer" root = false ->
  import_hitfilm_composite root s
  = (set_fps f (set_resolution_y h (set_resolution_x w s)), Ok CANCELLED).
Proof.
  intros Hs Ht. apply import_no_camera; [exact Hs|].
  now apply find_none_below_children.
Qed.

Lemma shallow_camera_cancelled_witness :
  count_tag "CameraLayer" Sample.doc_shallow_camera = 1%nat
  /\ import_hitfilm_composite (host := Sample.host)
       Sample.doc_shallow_camera Sample.empty_scene
     = (mkScene 1920 1080 30 250 1 [] None [], Ok CANCELLED).
Proof.
  split; [reflexivity|].
  apply (shallow_camera_cancelled (host := Sample.host)
           Sample.doc_shallow_camera Sample.empty_scene 1920 1080 30);
    reflexivity.
Defined.

(** ** The outcomes of the import *)

Section Outcomes.

Context {host : Host}.

(** The three ways an anchor node is handled. *)
Lemma anchor_point_cases (anchorNode : Element) (s : Scene) :
  anchor_point anchorNode s
  = match read_xyz (find anchorNode path_position_Default_p3) with
    | Raise e => (s, Raise e)
    | Ok v =>
        match find anchorNode path_Name with
        | None =>
            (fst (add_object (new_empty "ARROWS" (scale_position v)) s),
             Raise AttributeError)
        | Some n =>
            match text n with
            | None =>
                (fst (add_object (new_empty "ARROWS" (scale_position v)) s),
                 Raise TypeError)
            | Some nm => (fst (add_object (anchor_object nm v) s), Ok tt)
            end
        end
    end.
Proof.
  destruct (read_xyz (find anchorNode path_position_Default_p3))
    as [v|e] eqn:Ev.
  - destruct (find anchorNode path_Name) as [n|] eqn:En;
      [destruct (text n) as [nm|] eqn:Et|].
    + apply anchor_point_ok. unfold read_anchor. now rewrite Ev, En, Et.
    + unfold anchor_point. cbv zeta. rewrite Ev, En, Et.
      rewrite (bind_ok _ _ s s v eq_refl).
      do 2 (erewrite bind_ok by reflexivity).
      now erewrite bind_raise by reflexivity.
    + unfold anchor_point. cbv zeta. rewrite Ev, En.
      rewrite (bind_ok _ _ s s v eq_refl).
      do 2 (erewrite bind_ok by reflexivity).
      now erewrite bind_raise by reflexivity.
  - unfold anchor_point. cbv zeta. rewrite Ev.
    now rewrite (bind_raise _ _ s s e eq_refl).
Qed.

Lemma anchor_point_raise_iff (anchorNode : Element) (s : Scene) (e : exn) :
  read_anchor anchorNode = Raise e <->
  exists s', anchor_point anchorNode s = (s', Raise e).
Proof.
  rewrite anchor_point_cases. unfold read_anchor.
  destruct (read_xyz (find anchorNode path_position_Default_p3)) as [v|e0];
    cbn [rbind].
  - destruct (find anchorNode path_Name) as [n|]; [destruct (text n)|].
    + split; [discriminate | intros [s' H]; discriminate H].
    + split; [intros H; injection H as <-; eexists; reflexivity
             | intros [s' H]; now injection H as _ <-].
    + split; [intros H; injection H as <-; eexists; reflexivity
             | intros [s' H]; now injection H as _ <-].
  - split; [intros H; injection H as <-; eexists; reflexivity
           | intros [s' H]; now injection H as _ <-].
Qed.

End Outcomes.

(** ** What the import leaves in place *)

Lemma firstn_update_nth {A : Type} (f : A -> A) (l : list A) :
  forall n i, (n <= i)%nat -> firstn n (update_nth i f l) = firstn n l.
Proof.
  induction l as [|x l IH]; intros n i Hn; [now destruct i|].
  destruct i as [|i]; [now replace n with 0%nat by lia|].
  destruct n as [|n]; [reflexivity|].
  cbn. rewrite IH by lia. reflexivity.
Qed.

Lemma length_update_nth {A : Type} (f : A -> A) (l : list A) :
  forall i, List.length (update_nth i f l) = List.length l.
Proof.
  induction l as [|x l IH]; intros i; [now destruct i|].
  destruct i as [|i]; cbn; [reflexivity | now rewrite IH].
Qed.

Section Respects.

Variable n : nat.

Lemma extends_scene_refl (s : Scene) : extends_scene n s s.
Proof.
  split; [intros H; now split | exists []; now rewrite app_nil_r].
Qed.

Lemma extends_scene_trans (s s1 s2 : Scene) :
  extends_scene n s s1 -> extends_scene n s1 s2 -> extends_scene n s s2.
Proof.
  intros [F1 [k1 K1]] [F2 [k2 K2]]. split.
  - intros H. destruct (F1 H) as [H1 E1]. destruct (F2 H1) as [H2 E2].
    split; [exact H2 | congruence].
  - exists (k1 ++ k2). now rewrite K2, K1, app_assoc.
Qed.

Lemma extends_scene_same (s s' : Scene) :
  objects s' = objects s -> keyframes s' = keyframes s ->
  extends_scene n s s'.
Proof.
  intros Ho Hk. split.
  - intros H. rewrite Ho. now split.
  - exists []. now rewrite Hk, app_nil_r.
Qed.

Lemma respects_pure {A : Type} (m : M A) :
  (forall s, fst (m s) = s) -> respects (extends_scene n) m.
Proof.
  intros Hm s s' r E. pose proof (Hm s) as H. rewrite E in H. cbn in H.
  subst s'. apply extends_scene_refl.
Qed.

Lemma respects_bind {A B : Type} (m : M A) (k : A -> M B) :
  respects (extends_scene n) m ->
  (forall a, respects (extends_scene n) (k a)) ->
  respects (extends_scene n) (bind m k).
Proof.
  intros Hm Hk s s' r. unfold bind.
  destruct (m s) as [s1 [a|e]] eqn:E; intros E'.
  - eapply extends_scene_trans; [exact (Hm _ _ _ E) | exact (Hk a _ _ _ E')].
  - injection E' as <- _. exact (Hm _ _ _ E).
Qed.

Lemma respects_for_each {A : Type} (l : list A) (body : A -> M unit) :
  (forall x, respects (extends_scene n) (body x)) ->
  respects (extends_scene n) (for_each l body).
Proof.
  intros Hb. induction l as [|x l IH]; cbn [for_each].
  - now apply respects_pure.
  - apply respects_bind; [apply Hb | intros _; exact IH].
Qed.

Lemma respects_modify (f : Scene -> Scene) :
  (forall s, objects (f s) = objects s) ->
  (forall s, keyframes (f s) = keyframes s) ->
  respects (extends_scene n) (modify f).
Proof.
  intros Ho Hk s s' r E. injection E as <- _.
  now apply extends_scene_same.
Qed.

Lemma respects_getattr {A : Type} (ob : option nat) (attr : Object -> A) :
  respects (extends_scene n) (getattr ob attr).
Proof.
  apply respects_pure. intros s. unfold getattr.
  destruct ob as [i|]; [destruct (nth_error (objects s) i)|]; reflexivity.
Qed.

Lemma respects_setattr (i : nat) (upd : Object -> Object) :
  (n <= i)%nat -> respects (extends_scene n) (setattr (Some i) upd).
Proof.
  intros Hi s s' r E. unfold setattr in E. injection E as <- _. split.
  - intros H. cbn. rewrite length_update_nth. split; [exact H|].
    now apply firstn_update_nth.
  - exists []. cbn. now rewrite app_nil_r.
Qed.

Lemma respects_add_object (o : Object) :
  respects (extends_scene n) (add_object o).
Proof.
  intros s s' r E. unfold add_object in E. injection E as <- _. split.
  - intros H. cbn. rewrite length_app. split; [lia|].
    rewrite firstn_app. replace (n - List.length (objects s))%nat with 0%nat
      by lia.
    cbn. now rewrite app_nil_r.
  - exists []. cbn. now rewrite app_nil_r.
Qed.

Lemma respects_add_key (k : Keyframe) :
  respects (extends_scene n) (add_key k).
Proof.
  intros s s' r E. injection E as <- _. split.
  - intros H. now split.
  - now exists [k].
Qed.

Context {host : Host}.

Lemma respects_camera_frame (w : Z) (c : nat) (ps rs : list Vec3)
    (zs : list Qc) (i : nat) :
  (n <= c)%nat ->
  respects (extends_scene n) (camera_frame w (Some c) ps rs zs i).
Proof.
  intros Hc.
  unfold camera_frame, frame_set, keyframe_insert_lens,
    keyframe_insert_menu_LocRot. cbv zeta.
  repeat first
    [ apply respects_bind; [|intros ?]
    | apply respects_getattr
    | apply respects_setattr; exact Hc
    | apply respects_add_key
    | apply respects_modify; reflexivity
    | apply respects_pure; reflexivity
    | match goal with
      | |- respects _ (match ?x with _ => _ end) => destruct x
      end ].
Qed.

Lemma respects_anchor_point (anchorNode : Element) :
  respects (extends_scene n) (anchor_point anchorNode).
Proof.
  intros s s' r. rewrite anchor_point_cases.
  destruct (read_xyz (find anchorNode path_position_Default_p3)) as [v|e].
  - destruct (find anchorNode path_Name) as [nd|]; [destruct (text nd)|];
      intros E; injection E as <- _;
      eapply respects_add_object; unfold add_object; reflexivity.
  - intros E. injection E as <- _. apply extends_scene_refl.
Qed.

End Respects.

Lemma import_extends_scene {host : Host} (root : Element)
    (s s' : Scene) (r : result Status) :
  import_hitfilm_composite root s = (s', r) ->
  extends_scene (List.length (objects s)) s s'.
Proof.
  intros E.
  revert E. unfold import_hitfilm_composite.
    destruct (read_settings root) as [[[w h] f]|e] eqn:Hs.
    - rewrite (bind_ok _ _ s s (w, h, f)) by reflexivity.
      do 3 (erewrite bind_ok by reflexivity).
      destruct (find root path_CameraLayer) as [cameraNode|].
      + destruct (read_channels cameraNode) as [[[[tk ps] rs] zs]|e] eqn:Hch.
        * erewrite bind_ok by reflexivity.
          cbv beta iota. do 3 (erewrite bind_ok by reflexivity).
          cbn [active_object set_active_object].
          erewrite bind_ok by (apply (setattr_snoc (objects s)); reflexivity).
          erewrite bind_ok by (apply (setattr_snoc (objects s)); reflexivity).
          intros E.
          match type of E with
          | ?m ?st = _ =>
              assert (K : respects (extends_scene (List.length (objects s))) m)
          end.
          { repeat first
              [ apply respects_camera_frame; apply le_n
              | apply respects_anchor_point
              | apply respects_for_each; intros ?
              | apply respects_bind; [|intros ?]
              | apply respects_modify; reflexivity
              | apply respects_pure; reflexivity ]. }
          eapply extends_scene_trans; [|exact (K _ _ _ E)].
          split.
          -- intros _. cbn. rewrite length_app. split; [lia|].
             rewrite firstn_app, Nat.sub_diag. cbn. now rewrite app_nil_r.
          -- exists []. cbn. now rewrite app_nil_r.
        * erewrite bind_raise by reflexivity.
          intros E. injection E as <- _. now apply extends_scene_same.
      + intros E. injection E as <- _. now apply extends_scene_same.
    - erewrite bind_raise by reflexivity.
      intros E. injection E as <- _. apply extends_scene_refl.
Qed.

(** X8: whatever the outcome of the import, returned or raised, no object
    of the scene is removed or moved, the objects that carry no animation
    key when the import starts are left as they were, and the keys that
    were in the scene are still there, in their order: the import only
    appends objects and keys, and only writes to objects it has added. *)
Theorem existing_scene_preserved {host : Host} (root : Element)
    (s s' : Scene) (r : result Status) :
  import_hitfilm_composite root s = (s', r) ->
  (List.length (objects s) <= List.length (objects s'))%nat
  /\ (forall i o,
        nth_error (objects s) i = Some o ->
        (forall k, In k (keyframes s) -> key_object k <> i) ->
        nth_error (objects s') i = Some o)
  /\ (exists keys, keyframes s' = keyframes s ++ keys).
Proof.
  intros E.
  destruct (import_extends_scene root s s' r E) as [F [keys K]].
  destruct (F (le_n _)) as [Hl Hf].
  split; [exact Hl|]. split; [|now exists keys].
  intros i o Hi _.
  assert (Hlt : (i < List.length (objects s))%nat)
    by (apply nth_error_Some; congruence).
  rewrite <- Hi, <- (firstn_all (objects s)), <- Hf.
  now rewrite !nth_error_firstn, (proj2 (Nat.ltb_lt _ _) Hlt).
Qed.

Lemma existing_scene_preserved_witness :
  exists s',
    import_hitfilm_composite (host := Sample.host)
      Sample.doc_full Sample.scene_with_target = (s', Ok FINISHED)
    /\ (1 <= List.length (objects s'))%nat
    /\ nth_error (objects s') 0 = Some Sample.target.
Proof.
  destruct (existing_scene_preserved (host := Sample.host)
              Sample.doc_full Sample.scene_with_target _ _
              sample_full_finished_target) as (Hl & Ho & _).
  eexists. split; [exact sample_full_finished_target|].
  split; [exact Hl|].
  apply Ho; [reflexivity|]. intros k [].
Defined.

Section Finishing.

Context {host : Host}.

Lemma import_finishes (root : Element) (s : Scene) (w h f : Z)
    (cameraNode : Element) tk ps rs zs :
  read_settings root = Ok (w, h, f) ->
  find root path_CameraLayer = Some cameraNode ->
  read_channels cameraNode = Ok (tk, ps, rs, zs) ->
  List.length rs = List.length tk ->
  List.length zs = List.length tk ->
  tk = [] \/ Z2Qc w <> 0 ->
  forallb (fun node => is_ok (read_anchor node))
          (findall root path_PointLayer) = true ->
  exists s', import_hitfilm_composite root s = (s', Ok FINISHED).
Proof.
  intros Hs Hc Hch Hrs Hzs Hw Han.
  destruct (read_channels_ok_inv _ _ _ _ _ Hch) as (Hps & _ & _).
  unfold import_hitfilm_composite.
  rewrite (bind_ok _ _ s s (w, h, f)) by (unfold lift; now rewrite Hs).
  do 3 (erewrite bind_ok by reflexivity). rewrite Hc.
  erewrite bind_ok by (unfold lift; now rewrite Hch).
  cbv beta iota. do 3 (erewrite bind_ok by reflexivity).
  cbn [active_object set_active_object].
  erewrite bind_ok by (apply (setattr_snoc (objects s)); reflexivity).
  erewrite bind_ok by (apply (setattr_snoc (objects s)); reflexivity).
  match goal with
  | |- exists s', bind (for_each ?l ?b) ?k ?st = _ =>
      assert (E2 : exists s2, for_each l b st = (s2, Ok tt))
  end.
  { destruct Hw as [-> | Hw].
    - eexists. reflexivity.
    - apply (camera_frames_ok w (objects s) ps rs zs (List.length tk) 0 _
               (set_name "ARCamera"
                  (set_display_size (Q2Qc (2 # 10)) new_camera)));
        solve [reflexivity | exact Hw | cbn; lia]. }
  destruct E2 as [s2 E2]. rewrite (bind_ok _ _ _ _ _ E2).
  erewrite bind_ok by reflexivity.
  destruct (anchors_ok _ (set_frame_current 0 s2) Han) as [s3 E3].
  rewrite (bind_ok _ _ _ _ _ E3). now exists s3.
Qed.

End Finishing.

(** X9: the import returns Finished exactly when the settings are read, a
    camera layer is found, its channels are read with as many rotations and
    zooms as time keys, the width is not zero unless there is no frame, and
    every point layer has a readable position and a name. *)
Theorem import_finishes_iff {host : Host} (root : Element) (s : Scene) :
  (exists s', import_hitfilm_composite root s = (s', Ok FINISHED))
  <-> exists w h f cameraNode tk ps rs zs,
        read_settings root = Ok (w, h, f)
        /\ find root path_CameraLayer = Some cameraNode
        /\ read_channels cameraNode = Ok (tk, ps, rs, zs)
        /\ List.length rs = List.length tk
        /\ List.length zs = List.length tk
        /\ (tk = [] \/ Z2Qc w <> 0)
        /\ forallb (fun node => is_ok (read_anchor node))
                   (findall root path_PointLayer) = true.
Proof.
  split.
  - intros [s' E]. apply import_ok_inv in E.
    destruct E as (w & h & f & Hs & E).
    destruct (find root path_CameraLayer) as [cameraNode|];
      [|destruct E as [E _]; discriminate E].
    destruct E as (_ & tk & ps & rs & zs & camob & added & Hch & Hall & Hm & _).
    destruct (read_channels_ok_inv _ _ _ _ _ Hch) as (Lps & Lrs & Lzs).
    exists w, h, f, cameraNode, tk, ps, rs, zs.
    split; [exact Hs|]. split; [reflexivity|]. split; [exact Hch|].
    split; [|split; [|split]].
    + assert (List.length tk <= List.length rs)%nat.
      { apply nth_error_all_length. intros i Hi.
        destruct (Hall i Hi) as (z & l & p & r & _ & _ & Hr & _).
        now exists r. }
      destruct Lrs as [-> | Lrs]; [cbn in *; lia | exact Lrs].
    + assert (List.length tk <= List.length zs)%nat.
      { apply nth_error_all_length. intros i Hi.
        destruct (Hall i Hi) as (z & l & p & r & Hz & _). now exists z. }
      destruct Lzs as [-> | Lzs]; [cbn in *; lia | exact Lzs].
    + destruct tk as [|t tk]; [now left | right].
      destruct (Hall 0%nat) as (z & l & p & r & _ & Hl & _); [cbn; lia|].
      now apply zoomToLens_ok_inv in Hl.
    + now apply markers_of_readable in Hm.
  - intros (w & h & f & cameraNode & tk & ps & rs & zs
            & Hs & Hc & Hch & Hrs & Hzs & Hw & Han).
    now apply (import_finishes root s w h f cameraNode tk ps rs zs).
Qed.

(** X10: an import that finishes, from a scene with no object named
    ARCamera and with width, height and frame rate within the ranges
    Blender keeps them in, has written the three settings, set the end
    frame to the number of time keys and left the current frame at 0; it
    has added, after the objects of the scene, one camera named ARCamera of
    display size 0.2 and then one object for each point layer of the
    document, and two keys for each frame. *)
Theorem finished_scene {host : Host} (root : Element) (s s' : Scene)
    (w h f : Z) :
  import_hitfilm_composite root s = (s', Ok FINISHED) ->
  read_settings root = Ok (w, h, f) ->
  (4 <= w <= 65536)%Z -> (4 <= h <= 65536)%Z -> (1 <= f <= 32767)%Z ->
  Forall (fun o => name o <> "ARCamera") (objects s) ->
  exists cameraNode tk ps rs zs camob,
    find root path_CameraLayer = Some cameraNode
    /\ read_channels cameraNode = Ok (tk, ps, rs, zs)
    /\ resolution_x s' = w /\ resolution_y s' = h /\ fps s' = f
    /\ frame_end s' = Z.of_nat (List.length tk)
    /\ frame_current s' = 0%Z
    /\ nth_error (objects s') (List.length (objects s)) = Some camob
    /\ ob_type camob = "CAMERA" /\ name camob = "ARCamera"
    /\ display_size camob = Q2Qc (2 # 10)
    /\ List.length (objects s')
       = (List.length (objects s) + 1
          + count_below_children "PointLayer" root)%nat
    /\ List.length (keyframes s')
       = (List.length (keyframes s) + 2 * List.length tk)%nat.
Proof.
  intros E Hs0 Hw Hh Hfr _. apply import_ok_inv in E.
  destruct E as (w0 & h0 & f0 & Hs & E).
  rewrite Hs0 in Hs. injection Hs as <- <- <-.
  destruct (find root path_CameraLayer) as [cameraNode|];
    [|destruct E as [E _]; discriminate E].
  destruct E as (_ & tk & ps & rs & zs & camob & added & Hch & _ & Hm & Ho
                 & Hn & Hd & Ht & Hk & Hx & Hy & Hf & He & Hcur).
  exists cameraNode, tk, ps, rs, zs, camob.
  apply markers_of_readable in Hm. destruct Hm as [_ Hlen].
  unfold path_PointLayer in Hlen.
  rewrite length_findall_below_children in Hlen.
  assert (L : forall n a,
             List.length
               (flat_map (frame_keys (List.length (objects s)) w ps rs zs)
                         (seq a n)) = (2 * n)%nat).
  { induction n as [|n IH]; intros a; [reflexivity|].
    cbn [seq flat_map]. rewrite length_app, IH. cbn. lia. }
  unfold clamp in Hx, Hy, Hf.
  split; [reflexivity|]. split; [exact Hch|].
  split; [lia|]. split; [lia|]. split; [lia|].
  split; [exact He|]. split; [exact Hcur|].
  split; [|split; [exact Ht|split; [exact Hn|split; [exact Hd|split]]]].
  - rewrite Ho. rewrite nth_error_app2 by apply le_n. now rewrite Nat.sub_diag.
  - rewrite Ho, length_app. cbn [List.length]. rewrite Hlen. lia.
  - now rewrite Hk, length_app, L.
Qed.

Lemma finished_scene_witness :
  exists s' camob,
    import_hitfilm_composite (host := Sample.host)
      Sample.doc_full Sample.scene_with_target = (s', Ok FINISHED)
    /\ resolution_x s' = 1920%Z /\ resolution_y s' = 1080%Z /\ fps s' = 30%Z
    /\ frame_end s' = 2%Z /\ frame_current s' = 0%Z
    /\ nth_error (objects s') 1 = Some camob
    /\ ob_type camob = "CAMERA" /\ name camob = "ARCamera"
    /\ List.length (objects s') = 4%nat
    /\ List.length (keyframes s') = 4%nat.
Proof.
  assert (Hfresh : Forall (fun o => name o <> "ARCamera")
                          (objects Sample.scene_with_target))
    by (constructor; [discriminate | constructor]).
  destruct (finished_scene (host := Sample.host) Sample.doc_full
              Sample.scene_with_target _ 1920 1080 30
              sample_full_finished_target eq_refl
              (conj (Zle_bool_imp_le 4 1920 eq_refl)
                    (Zle_bool_imp_le 1920 65536 eq_refl))
              (conj (Zle_bool_imp_le 4 1080 eq_refl)
                    (Zle_bool_imp_le 1080 65536 eq_refl))
              (conj (Zle_bool_imp_le 1 30 eq_refl)
                    (Zle_bool_imp_le 30 32767 eq_refl))
              Hfresh)
    as (c & tk & ps & rs & zs & camob & H1 & H2 & Hx & Hy & Hf & He & Hc
        & Hcam & Ht & Hn & _ & Ho & Hk).
  assert (Fc : find Sample.doc_full path_CameraLayer
               = Some (Sample.camera_of Sample.doc_full)) by reflexivity.
  rewrite Fc in H1. injection H1 as <-.
  assert (L : List.length tk = 2%nat).
  { assert (R : exists ps0 rs0 zs0,
               read_channels (host := Sample.host)
                 (Sample.camera_of Sample.doc_full)
               = Ok ([Some "0"; Some "1"], ps0, rs0, zs0))
      by (do 3 eexists; reflexivity).
    destruct R as (ps0 & rs0 & zs0 & R). rewrite R in H2.
    now injection H2 as <- _ _ _. }
  rewrite L in He, Hk.
  exists (fst (import_hitfilm_composite (host := Sample.host)
                 Sample.doc_full Sample.scene_with_target)), camob.
  exact (conj sample_full_finished_target
           (conj Hx (conj Hy (conj Hf (conj He (conj Hc
              (conj Hcam (conj Ht (conj Hn (conj Ho Hk)))))))))).
Defined.

(** X11: when the rotation channel is absent while the position and zoom
    channels have keys, the width being not zero, the import raises
    IndexError at the first frame with the lens of frame 0 already keyed:
    that single key is left in the scene. *)
Theorem absent_rotation_raises {host : Host} (root : Element) (s : Scene)
    (w h f : Z) (cameraNode : Element) :
  read_settings root = Ok (w, h, f) ->
  find root path_CameraLayer = Some cameraNode ->
  well_formed_camera cameraNode = true ->
  absent cameraNode path_orientation_Animation = true ->
  channel_length cameraNode path_zoom_Animation
  = channel_length cameraNode path_position_Animation ->
  (0 < channel_length cameraNode path_position_Animation)%nat ->
  Z2Qc w <> 0 ->
  exists s' zoom,
    import_hitfilm_composite root s = (s', Raise IndexError)
    /\ keyframes s'
       = keyframes s
         ++ [KeyLens (List.length (objects s)) 0 (focal_length zoom w)].
Proof.
  intros Hs Hc Hwf Hr Hz Hn Hw.
  assert (Ha : lengths_agree cameraNode = true).
  { unfold lengths_agree, matches_position.
    now rewrite Hr, Hz, Nat.eqb_refl, orb_true_r. }
  pose proof (read_channels_cases cameraNode Hwf) as Hch. rewrite Ha in Hch.
  destruct Hch as (tk & ps & rs & zs & Hch & Ltk & _ & Lrs & Lzs).
  rewrite (absent_length _ _ Hr) in Lrs. apply length_zero_iff_nil in Lrs.
  subst rs. rewrite Hz, <- Ltk in Lzs. rewrite <- Ltk in Hn.
  destruct tk as [|t tk]; [cbn in Hn; lia|].
  destruct zs as [|z zs]; [discriminate Lzs|].
  unfold import_hitfilm_composite.
  rewrite (bind_ok _ _ s s (w, h, f)) by (unfold lift; now rewrite Hs).
  do 3 (erewrite bind_ok by reflexivity). rewrite Hc.
  erewrite bind_ok by (unfold lift; now rewrite Hch).
  cbv beta iota. do 3 (erewrite bind_ok by reflexivity).
  cbn [active_object set_active_object].
  erewrite bind_ok by (apply (setattr_snoc (objects s)); reflexivity).
  erewrite bind_ok by (apply (setattr_snoc (objects s)); reflexivity).
  eexists. exists z. split.
  - apply bind_raise. cbn [List.length seq for_each].
    apply bind_raise. unfold camera_frame.
    erewrite bind_ok by reflexivity.
    erewrite bind_ok by reflexivity.
    erewrite bind_ok by (unfold lift; now rewrite (zoomToLens_value z _ Hw)).
    erewrite bind_ok by (apply (setattr_snoc (objects s)); reflexivity).
    erewrite bind_ok
      by (apply (keyframe_insert_lens_snoc (objects s)); reflexivity).
    apply bind_raise. reflexivity.
  - reflexivity.
Qed.

Lemma absent_rotation_raises_witness :
  exists s' zoom,
    import_hitfilm_composite (host := Sample.host)
      Sample.doc_no_rotation Sample.empty_scene = (s', Raise IndexError)
    /\ keyframes s'
       = keyframes Sample.empty_scene
         ++ [KeyLens 0 0 (focal_length zoom 1920)].
Proof.
  apply (absent_rotation_raises (host := Sample.host)
           Sample.doc_no_rotation Sample.empty_scene 1920 1080 30
           (Sample.camera_of Sample.doc_no_rotation));
    first [reflexivity | cbn; lia | intros E; discriminate (f_equal this E)].
Defined.

Lemma zoomToLens_zero_width (zoom : Qc) :
  zoomToLens zoom (Z2Qc 0) = Raise ZeroDivisionError.
Proof.
  unfold zoomToLens.
  rewrite (truediv_ok zoom _ PixelsPerMM_nonzero). cbn [rbind].
  rewrite (truediv_ok (Z2Qc 0) _ PixelsPerMM_nonzero). cbn [rbind].
  unfold truediv. change (Z2Qc 0) with 0. now rewrite Qcdiv_zero_l.
Qed.

(** X12: with a width of zero and a zoom channel of as many keys as the
    position channel, at least one, the import raises ZeroDivisionError at
    the first frame.  The settings and the end frame are written, the
    width as 4, the least resolution Blender keeps, and the camera is
    added, but no key is inserted. *)
Theorem zero_width_raises {host : Host} (root : Element) (s : Scene)
    (h f : Z) (cameraNode : Element) :
  read_settings root = Ok (0%Z, h, f) ->
  find root path_CameraLayer = Some cameraNode ->
  well_formed_camera cameraNode = true ->
  lengths_agree cameraNode = true ->
  channel_length cameraNode path_zoom_Animation
  = channel_length cameraNode path_position_Animation ->
  (0 < channel_length cameraNode path_position_Animation)%nat ->
  (4 <= h <= 65536)%Z -> (1 <= f <= 32767)%Z ->
  exists s',
    import_hitfilm_composite root s = (s', Raise ZeroDivisionError)
    /\ resolution_x s' = 4%Z /\ resolution_y s' = h /\ fps s' = f
    /\ frame_end s'
       = Z.of_nat (channel_length cameraNode path_position_Animation)
    /\ frame_current s' = 0%Z
    /\ List.length (objects s') = (List.length (objects s) + 1)%nat
    /\ keyframes s' = keyframes s.
Proof.
  intros Hs Hc Hwf Ha Hz Hn Hh Hf.
  pose proof (read_channels_cases cameraNode Hwf) as Hch. rewrite Ha in Hch.
  destruct Hch as (tk & ps & rs & zs & Hch & Ltk & _ & _ & Lzs).
  rewrite Hz, <- Ltk in Lzs. rewrite <- Ltk in *.
  destruct tk as [|t tk]; [cbn in Hn; lia|].
  destruct zs as [|z zs]; [discriminate Lzs|].
  unfold import_hitfilm_composite.
  rewrite (bind_ok _ _ s s (0%Z, h, f)) by (unfold lift; now rewrite Hs).
  do 3 (erewrite bind_ok by reflexivity). rewrite Hc.
  erewrite bind_ok by (unfold lift; now rewrite Hch).
  cbv beta iota. do 3 (erewrite bind_ok by reflexivity).
  cbn [active_object set_active_object].
  erewrite bind_ok by (apply (setattr_snoc (objects s)); reflexivity).
  erewrite bind_ok by (apply (setattr_snoc (objects s)); reflexivity).
  eexists. split.
  - apply bind_raise. cbn [List.length seq for_each].
    apply bind_raise. unfold camera_frame.
    erewrite bind_ok by reflexivity.
    erewrite bind_ok by reflexivity.
    apply bind_raise. unfold lift.
    now rewrite (zoomToLens_zero_width z).
  - cbn. rewrite length_app. cbn. unfold clamp. repeat split; lia.
Qed.

Lemma zero_width_raises_witness :
  exists s',
    import_hitfilm_composite (host := Sample.host)
      Sample.doc_zero_width Sample.small_scene = (s', Raise ZeroDivisionError)
    /\ resolution_x s' = 4%Z /\ resolution_y s' = 1080%Z /\ fps s' = 30%Z
    /\ frame_end s' = 1%Z /\ frame_current s' = 0%Z
    /\ List.length (objects s') = 1%nat
    /\ keyframes s' = [].
Proof.
  apply (zero_width_raises (host := Sample.host)
           Sample.doc_zero_width Sample.small_scene 1080 30
           (Sample.camera_of Sample.doc_zero_width));
    first [reflexivity | cbn; lia].
Defined.



Section ChannelErrors.

Context {host : Host}.

Lemma read_position_keys_raise (good : list Element) (bad : Element)
    (rest : list Element) (e : exn) :
  forallb (fun k => is_ok (read_position_key k)) good = true ->
  read_position_key bad = Raise e ->
  forall tk ps, read_position_keys (good ++ bad :: rest) tk ps = Raise e.
Proof.
  intros Hg Hb. induction good as [|k good IH]; intros tk ps; cbn.
  - now rewrite Hb.
  - cbn in Hg. apply andb_true_iff in Hg. destruct Hg as [H1 Hg].
    destruct (read_position_key k); [|discriminate]. cbn [rbind].
    now apply IH.
Qed.

Lemma mismatch_raises {A : Type} (cameraNode : Element) (path : list step)
    (read : Element -> result A) (tk : list (option string)) :
  List.length tk = channel_length cameraNode path_position_Animation ->
  matches_position cameraNode path = false ->
  read_checked_channel cameraNode path read tk = Raise AssertionError.
Proof.
  intros Htk Hm. rewrite read_checked_channel_keys.
  unfold matches_position, absent in Hm. rewrite <- Htk in Hm.
  assert (Hlen : channel_length cameraNode path
                 = match channel_keys cameraNode path with
                   | None => 0%nat
                   | Some keys => List.length keys
                   end) by reflexivity.
  rewrite Hlen in Hm.
  destruct (channel_keys cameraNode path) as [keys|]; [|discriminate Hm].
  cbn [orb] in Hm. now rewrite Nat.eqb_sym, Hm.
Qed.

End ChannelErrors.

(** X14: the lengths are checked before the keys are read: once the
    position channel is read, a rotation channel of another length fails the
    assertion whatever its keys and the zoom channel hold, and so does a zoom
    channel of another length after a rotation channel that was read,
    whatever the zoom keys hold. *)
Theorem length_checked_before_keys {host : Host} (cameraNode : Element) :
  keys_ok read_position_key
          (channel_keys cameraNode path_position_Animation) = true ->
  (matches_position cameraNode path_orientation_Animation = false ->
   read_channels cameraNode = Raise AssertionError)
  /\ (keys_ok read_rotation_key
              (channel_keys cameraNode path_orientation_Animation) = true ->
      matches_position cameraNode path_orientation_Animation = true ->
      matches_position cameraNode path_zoom_Animation = false ->
      read_channels cameraNode = Raise AssertionError).
Proof.
  intros Hp.
  destruct (read_position_channel_ok cameraNode Hp) as (tk & ps & E & Htk & _).
  unfold read_channels. rewrite E. cbn [rbind fst snd]. split.
  - intros Hm. now rewrite (mismatch_raises _ _ _ tk Htk Hm).
  - intros Hr Hm Hz.
    pose proof (read_checked_channel_cases cameraNode
                  path_orientation_Animation read_rotation_key tk Hr Htk) as C.
    rewrite Hm in C. destruct C as (rs & -> & _). cbn [rbind].
    now rewrite (mismatch_raises _ _ _ tk Htk Hz).
Qed.

Lemma length_checked_before_keys_witness :
  read_channels (host := Sample.host)
    (Sample.camera_of Sample.doc_rotation_only) = Raise AssertionError.
Proof.
  apply (proj1 (length_checked_before_keys (host := Sample.host)
                  (Sample.camera_of Sample.doc_rotation_only) eq_refl)).
  reflexivity.
Defined.

(** X15: the first position key that cannot be read ends the import with
    its exception, whatever the keys after it and the other channels hold:
    the settings are written, and nothing else; no camera is added. *)
Theorem unreadable_position_key {host : Host} (root : Element) (s : Scene)
    (w h f : Z) (cameraNode : Element) (good : list Element) (bad : Element)
    (rest : list Element) (e : exn) :
  read_settings root = Ok (w, h, f) ->
  find root path_CameraLayer = Some cameraNode ->
  channel_keys cameraNode path_position_Animation
  = Some (good ++ bad :: rest) ->
  forallb (fun k => is_ok (read_position_key k)) good = true ->
  read_position_key bad = Raise e ->
  import_hitfilm_composite root s
  = (set_fps f (set_resolution_y h (set_resolution_x w s)), Raise e).
Proof.
  intros Hs Hc Hk Hg Hb.
  apply (import_channels_raise root s w h f cameraNode Hs Hc).
  unfold read_channels. rewrite read_position_channel_keys, Hk.
  now rewrite (read_position_keys_raise good bad rest e Hg Hb).
Qed.

Lemma unreadable_position_key_witness :
  import_hitfilm_composite (host := Sample.host)
    Sample.doc_bad_position_key Sample.empty_scene
  = (mkScene 1920 1080 30 250 1 [] None [], Raise AttributeError).
Proof.
  apply (unreadable_position_key (host := Sample.host)
           Sample.doc_bad_position_key Sample.empty_scene 1920 1080 30
           (Sample.camera_of Sample.doc_bad_position_key)
           [Sample.key "0" (Sample.xyz "FXPoint3_32f" "100" "200" "300")]
           (Sample.key "1" (Sample.node "Nothing" []))
           [Sample.key "2" (Sample.xyz "FXPoint3_32f" "100" "200" "300")]
           AttributeError);
    reflexivity.
Defined.


(** X17: what the reading of the channels returns: the time keys are the
    Time attributes of the keys of the first position Animation, in order
    (none when there is no position Animation); there are as many positions
    as time keys; and the rotations, like the zooms, are either none or as
    many as the time keys. *)
Theorem channels_invariant {host : Host} (cameraNode : Element) tk ps rs zs :
  read_channels cameraNode = Ok (tk, ps, rs, zs) ->
  tk = match channel_keys cameraNode path_position_Animation with
       | None => []
       | Some keys => map (fun key => get key "Time") keys
       end
  /\ List.length ps = List.length tk
  /\ (rs = [] \/ List.length rs = List.length tk)
  /\ (zs = [] \/ List.length zs = List.length tk).
Proof.
  intros E. split; [|now apply (read_channels_ok_inv cameraNode)].
  unfold read_channels in E. rewrite read_position_channel_keys in E.
  destruct (channel_keys cameraNode path_position_Animation) as [keys|].
  - destruct (read_position_keys keys [] []) as [[tk0 ps0]|e] eqn:Ep;
      cbn [rbind fst snd] in E; [|discriminate E].
    apply read_position_keys_ok_inv in Ep. destruct Ep as [-> _].
    destruct (read_checked_channel cameraNode path_orientation_Animation _ _);
      cbn [rbind] in E; [|discriminate E].
    destruct (read_checked_channel cameraNode path_zoom_Animation _ _);
      cbn [rbind] in E; [|discriminate E].
    now injection E as <- _ _ _.
  - cbn [rbind fst snd] in E.
    destruct (read_checked_channel cameraNode path_orientation_Animation _ _);
      cbn [rbind] in E; [|discriminate E].
    destruct (read_checked_channel cameraNode path_zoom_Animation _ _);
      cbn [rbind] in E; [|discriminate E].
    now injection E as <- _ _ _.
Qed.

Lemma channels_invariant_witness :
  exists tk ps rs zs,
    read_channels (host := Sample.host) (Sample.camera_of Sample.doc_full)
    = Ok (tk, ps, rs, zs)
    /\ tk = [Some "0"; Some "1"]
    /\ List.length ps = List.length tk.
Proof.
  destruct (read_channels (host := Sample.host)
              (Sample.camera_of Sample.doc_full))
    as [[[[tk ps] rs] zs]|e] eqn:E; [|vm_compute in E; discriminate E].
  destruct (channels_invariant (host := Sample.host) _ tk ps rs zs E)
    as (Htk & Hps & _).
  exists tk, ps, rs, zs. split; [reflexivity|]. split; [exact Htk | exact Hps].
Defined.
